(** * LazySharIterator (lhotse/shar/readers/lazy.py)

    A shallow embedding of the Lhotse Shar reader and the properties of its
    specification.  Python values are modelled as follows:

    - [str] is [string]; a [pathlib.Path] is the string it was built from,
      observed through [Pathlib.name], [Pathlib.stem] and [Pathlib.suffixes];
    - a [dict] is an association list in insertion order ([Py.dict_set]
      keeps the position of a key that is already present);
    - a [set] of strings is a duplicate-free list;
    - an iterator is the list of items it still has to produce, followed by
      either [StopIteration] or an exception ([Stream]);
    - a generator's observable behaviour is the list of values it yields
      and the way it ends ([Outcome]);
    - an instance is a record, and a method maps the instance to a result and
      the instance after the call. *)

From Stdlib Require Import List String Ascii ZArith Bool Arith Lia.
From Stdlib Require Import Permutation Sorted DecimalString.
Import ListNotations.
Local Open Scope string_scope.
Local Open Scope list_scope.

(** ** Python built-ins used by the reader *)

Module Py.

(** [s.split(sep)] for a one-character separator. *)
Fixpoint split (sep : ascii) (s : string) : list string :=
  match s with
  | EmptyString => [EmptyString]
  | String c s' =>
      if Ascii.eqb c sep then EmptyString :: split sep s'
      else match split sep s' with
           | [] => [String c EmptyString]
           | w :: ws => String c w :: ws
           end
  end.

(** [l[0]] on a list of strings that is never empty. *)
Definition first (l : list string) : string := hd EmptyString l.

(** [s.rfind(c)], the positions being counted from [i]; [-1] when absent. *)
Fixpoint rfind_from (c : ascii) (s : string) (i : Z) : Z :=
  match s with
  | EmptyString => (-1)%Z
  | String a s' =>
      let r := rfind_from c s' (i + 1)%Z in
      if (0 <=? r)%Z then r else if Ascii.eqb a c then i else (-1)%Z
  end.

Definition rfind (c : ascii) (s : string) : Z := rfind_from c s 0%Z.

Definition len (s : string) : Z := Z.of_nat (String.length s).

(** [s[:i]] and [s[i:]] for [0 <= i]. *)
Definition slice_to (s : string) (i : Z) : string :=
  substring 0 (Z.to_nat i) s.

Definition slice_from (s : string) (i : Z) : string :=
  substring (Z.to_nat i) (String.length s - Z.to_nat i) s.

Fixpoint endswith (c : ascii) (s : string) : bool :=
  match s with
  | EmptyString => false
  | String a EmptyString => Ascii.eqb a c
  | String _ s' => endswith c s'
  end.

Fixpoint lstrip (c : ascii) (s : string) : string :=
  match s with
  | EmptyString => EmptyString
  | String a s' => if Ascii.eqb a c then lstrip c s' else s
  end.

(** [str(z)] for an integer. *)
Definition str_of_int (z : Z) : string :=
  NilZero.string_of_int (Z.to_int z).

(** *** Dictionaries *)

Definition dict (V : Type) : Type := list (string * V).

Fixpoint dict_get {V} (d : dict V) (k : string) : option V :=
  match d with
  | [] => None
  | (k', v) :: d' => if String.eqb k' k then Some v else dict_get d' k
  end.

Definition dict_mem {V} (d : dict V) (k : string) : bool :=
  match dict_get d k with Some _ => true | None => false end.

(** [d[k] = v]: a present key keeps its position, a new key goes last. *)
Fixpoint dict_set {V} (d : dict V) (k : string) (v : V) : dict V :=
  match d with
  | [] => [(k, v)]
  | (k', v') :: d' =>
      if String.eqb k' k then (k', v) :: d' else (k', v') :: dict_set d' k v
  end.

Definition dict_keys {V} (d : dict V) : list string := map fst d.
Definition dict_values {V} (d : dict V) : list V := map snd d.

(** *** Sets of strings *)

Definition set_of (l : list string) : list string := nodup string_dec l.

Definition set_mem (k : string) (s : list string) : bool :=
  existsb (String.eqb k) s.

Definition set_remove (k : string) (s : list string) : list string :=
  List.remove string_dec k s.

(** *** [sorted] on strings: code-point order, shorter prefix first.
    The paths that [glob] returns for one directory differ in their last
    component only, and [pathlib] orders them as it orders their strings. *)

Fixpoint insert (x : string) (l : list string) : list string :=
  match l with
  | [] => [x]
  | y :: l' => if String.leb x y then x :: l else y :: insert x l'
  end.

Fixpoint sorted (l : list string) : list string :=
  match l with
  | [] => []
  | x :: l' => insert x (sorted l')
  end.

(** The order [sorted] sorts by, as a relation. *)
Definition str_le (a b : string) : Prop := String.leb a b = true.

(** [sum] of naturals. *)
Definition sum (l : list nat) : nat := fold_right Nat.add 0 l.

End Py.

(** ** [pathlib.PurePosixPath] *)

Definition Path : Type := string.

Module Pathlib.

Definition slash : ascii := "/"%char.
Definition dot : ascii := "."%char.

(** The components of a path: empty components and ["."] are dropped
    when the path is parsed. *)
Definition parts (p : Path) : list string :=
  filter (fun c => negb (String.eqb c EmptyString) && negb (String.eqb c "."))
         (Py.split slash p).

(** [p.name]: the final component, [''] when there is none. *)
Definition name (p : Path) : string := last (parts p) EmptyString.

(** [p.stem]: the name without its last suffix. *)
Definition stem (p : Path) : string :=
  let name := name p in
  let i := Py.rfind dot name in
  if (0 <? i)%Z && (i <? Py.len name - 1)%Z then Py.slice_to name i
  else name.

(** [p.suffix]. *)
Definition suffix (p : Path) : string :=
  let name := name p in
  let i := Py.rfind dot name in
  if (0 <? i)%Z && (i <? Py.len name - 1)%Z then Py.slice_from name i
  else EmptyString.

(** [p.suffixes]. *)
Definition suffixes (p : Path) : list string :=
  let name := name p in
  if Py.endswith dot name then []
  else map (fun sfx => String dot sfx)
           (tl (Py.split dot (Py.lstrip dot name))).

End Pathlib.

(** ** Data model *)

(** A Python value that may be [None]: an item manifest read from an
    archive, or a JSON value of a manifest line. *)
Inductive Val : Type :=
| VNone
| VStr (s : string)
| VInt (z : Z).

Definition is_None (v : Val) : bool :=
  match v with VNone => true | _ => false end.

(** [f"{v}"]. *)
Definition format (v : Val) : string :=
  match v with
  | VNone => "None"
  | VStr s => s
  | VInt z => Py.str_of_int z
  end.

Inductive exn : Type :=
| AssertionError
| KeyError
| IndexError.

Inductive Result (A : Type) : Type :=
| Ok (a : A)
| Err (e : exn).
Arguments Ok {A} a.
Arguments Err {A} e.

(** [v == w] on values. *)
Definition Val_eqb (v w : Val) : bool :=
  match v, w with
  | VNone, VNone => true
  | VStr s, VStr t => String.eqb s t
  | VInt x, VInt y => Z.eqb x y
  | _, _ => false
  end.

(** Modelled from the spec: the record type [Cut] (lhotse/cut is not among
    the sources), as the reader uses it: a Python object whose attributes
    are its id, the field values attached to it under their names and the
    back-reference to the primary shard location it was read from.  The
    attributes share one name space: [id] holds the attribute ['id'],
    [shard_origin] the attribute ['shard_origin'] (absent until it is set),
    [custom] every other attribute. *)
Record Cut : Type := Build_Cut {
  id : Val;
  custom : Py.dict Val;
  shard_origin : option Val
}.

(** A record as a manifest holds it: a string id, its other attributes,
    and the location it was read from when it has been stamped. *)
Definition mkCut (id : string) (custom : Py.dict Val)
    (shard_origin : option Path) : Cut :=
  Build_Cut (VStr id) custom (option_map VStr shard_origin).

(** [getattr(cut, name)], [None] when the attribute is absent. *)
Definition getattr (cut : Cut) (name : string) : option Val :=
  if String.eqb name "id" then Some (id cut)
  else if String.eqb name "shard_origin" then shard_origin cut
       else Py.dict_get (custom cut) name.

(** [setattr(cut, name, value)]: the attribute of that name is written,
    whichever it is. *)
Definition setattr (cut : Cut) (name : string) (v : Val) : Cut :=
  if String.eqb name "id" then Build_Cut v (custom cut) (shard_origin cut)
  else if String.eqb name "shard_origin"
       then Build_Cut (id cut) (custom cut) (Some v)
       else Build_Cut (id cut) (Py.dict_set (custom cut) name v)
                      (shard_origin cut).

(** [cut.shard_origin = path], which is [setattr(cut, 'shard_origin',
    path)]. *)
Definition set_shard_origin (cut : Cut) (path : Path) : Cut :=
  setattr cut "shard_origin" (VStr path).

(** What an archive stream yields: [(maybe_manifest, data_path)]. *)
Definition Item : Type := (Val * Path)%type.

(** A deserialized line of a JSONL manifest. *)
Definition JsonlItem : Type := Py.dict Val.

(** An iterator: the items still to come, then [StopIteration]
    ([raises = None]) or an exception. *)
Record Stream (A : Type) : Type := mkStream {
  items : list A;
  raises : option exn
}.
Arguments mkStream {A} items raises.
Arguments items {A} s.
Arguments raises {A} s.

Definition stream_of {A} (l : list A) : Stream A := mkStream l None.

Inductive Next (A : Type) : Type :=
| Got (x : A) (rest : Stream A)
| StopIteration
| Throws (e : exn).
Arguments Got {A} x rest.
Arguments StopIteration {A}.
Arguments Throws {A} e.

(** [next(it)]. *)
Definition next {A} (it : Stream A) : Next A :=
  match items it with
  | x :: rest => Got x (mkStream rest (raises it))
  | [] => match raises it with
          | None => StopIteration
          | Some e => Throws e
          end
  end.

(** How a generator ends. *)
Inductive Outcome : Type :=
| Finished
| Raised (e : exn).

Definition Shard : Type := Py.dict Path.

(** Modelled from the spec: a per-shard transform, when there is one, is a
    function of the record: it returns a record for every record it is
    given and keeps no state between calls. *)
Definition cut_map_fn : Type := option (Cut -> Cut).

(** ** The collaborators

    Everything the reader consumes from outside: the file system seen
    through the iterators of lhotse.lazy and lhotse.shar.readers.tar, the
    ambient distributed context, and the state of the process-wide
    generator of the [random] module. *)
Record World : Type := mkWorld {
  (** [list(Path(in_dir).glob("*"))], in the order the system lists them *)
  glob_star : Path -> list Path;
  (** the records [LazyManifestIterator(path)] yields *)
  manifest_cuts : Path -> list Cut;
  (** the pairs [TarIterator(path)] yields *)
  tar_items : Path -> list Item;
  (** the lines [LazyJsonlIterator(path)] yields *)
  jsonl_items : Path -> list JsonlItem;
  (** the text of a file *)
  file_text : Path -> string;
  (** Modelled from the spec: the Distribution Splitter
      ([split_by_node] and [split_by_worker] of readers/utils.py, which is
      not among the sources) is a pure function from the ordered list of
      shard descriptors to a sub-list, fixed by the ambient node and worker
      context. *)
  split_by_node : list Shard -> list Shard;
  split_by_worker : list Shard -> list Shard;
  (** the state of the module-level generator [random._inst] *)
  global_random_state : Z
}.

Definition LazyManifestIterator (w : World) (path : Path) : Stream Cut :=
  stream_of (manifest_cuts w path).

Definition TarIterator (w : World) (path : Path) : Stream Item :=
  stream_of (tar_items w path).

Definition LazyJsonlIterator (w : World) (path : Path) : Stream JsonlItem :=
  stream_of (jsonl_items w path).

Definition newline : ascii := ascii_of_nat 10.

(** Modelled from the spec: [count_newlines_fast] (lhotse/lazy.py is not
    among the sources) counts the newline-terminated lines of a file
    without deserializing them. *)
Fixpoint count_newlines (s : string) : nat :=
  match s with
  | EmptyString => 0
  | String c s' => (if Ascii.eqb c newline then 1 else 0) + count_newlines s'
  end.

Definition count_newlines_fast (w : World) (p : Path) : nat :=
  count_newlines (file_text w p).

(** Modelled from the spec: [extension_contains(ext, path)]
    (lhotse/serialization.py is not among the sources) tells whether a
    location carries the extension [ext], which is how a binary archive and a
    line-oriented manifest are told apart. *)
Definition extension_contains (ext : string) (path : Path) : bool :=
  existsb (String.eqb ext) (Pathlib.suffixes path).

(** Modelled from the spec: [exactly_one_not_null] (lhotse/utils.py is not
    among the sources): exactly one of the two construction modes is
    supplied. *)
Definition exactly_one_not_null {A B} (a : option A) (b : option B) : bool :=
  match a, b with
  | Some _, None | None, Some _ => true
  | _, _ => false
  end.

(** Modelled from the spec: [ifnone(item, alt_item)] (lhotse/utils.py). *)
Definition ifnone {A} (item : option A) (alt_item : A) : A :=
  match item with Some x => x | None => alt_item end.

(** ** The [random] module

    [random.Random(seed)] is a generator private to its caller; its only
    primitive used by [shuffle] is [_randbelow(n)], an integer in [0, n)
    for [n > 0]. *)
Class Random : Type := {
  rng : Type;
  Random_seed : Z -> rng;
  randbelow : rng -> nat -> nat * rng
}.

(** [x[i], x[j] = x[j], x[i]] (both indices are in range in [shuffle]). *)
Fixpoint list_set {A} (l : list A) (i : nat) (x : A) : list A :=
  match l, i with
  | [], _ => []
  | _ :: l', 0 => x :: l'
  | y :: l', S i' => y :: list_set l' i' x
  end.

Definition swap {A} (x : list A) (i j : nat) : list A :=
  match nth_error x i, nth_error x j with
  | Some xi, Some xj => list_set (list_set x i xj) j xi
  | _, _ => x
  end.

(** [for i in reversed(range(1, len(x))): j = randbelow(i + 1); swap];
    [shuffle_from n] runs the iterations [i = n, n - 1, ..., 1]. *)
Fixpoint shuffle_from `{Random} {A} (i : nat) (g : rng) (x : list A) : list A :=
  match i with
  | 0 => x
  | S i' =>
      let (j, g') := randbelow g (i + 1) in
      shuffle_from i' g' (swap x i j)
  end.

(** [random.Random(seed).shuffle(x)]. *)
Definition shuffle `{Random} {A} (seed : Z) (x : list A) : list A :=
  shuffle_from (List.length x - 1) (Random_seed seed) x.

(** ** The archive stream adaptor *)

(** The body of [_jsonl_tar_adaptor]'s loop over the lines that
    [jsonl_iter] still has to produce; [tail] is how [jsonl_iter] ends.
    [item['cut_id']] raises [KeyError] on a line without that key, which
    ends the generator. *)
Fixpoint adapt_lines (field : string) (lines : list JsonlItem)
    (tail : option exn) : Stream Item :=
  match lines with
  | [] => mkStream [] tail
  | item :: lines' =>
      match Py.dict_get item "cut_id" with
      | None => mkStream [] (Some KeyError)
      | Some cut_id =>
          let pseudo_path : Path := (format cut_id ++ ".dummy")%string in
          let item' :=
            if negb (Py.dict_mem item field) then VNone
            else match Py.dict_get item field with
                 | Some v => v
                 | None => VNone
                 end in
          let rest := adapt_lines field lines' tail in
          mkStream ((item', pseudo_path) :: items rest) (raises rest)
      end
  end.

Definition _jsonl_tar_adaptor (jsonl_iter : Stream JsonlItem)
    (field : string) : Stream Item :=
  adapt_lines field (items jsonl_iter) (raises jsonl_iter).

(** ** The merge of one shard *)

(** One step of [zip] over the iterators [its]: the iterators are advanced from left to
    right; the first exhausted one ends the zip, the iterators before it
    having been advanced and the ones after it not. *)
Inductive ZipStep (A : Type) : Type :=
| ZipYield (xs : list A) (its : list (Stream A))
| ZipStop (its : list (Stream A))
| ZipThrows (e : exn) (its : list (Stream A)).
Arguments ZipYield {A} xs its.
Arguments ZipStop {A} its.
Arguments ZipThrows {A} e its.

Fixpoint zip_next {A} (its : list (Stream A)) : ZipStep A :=
  match its with
  | [] => ZipYield [] []
  | it :: its' =>
      match next it with
      | StopIteration => ZipStop its
      | Throws e => ZipThrows e its
      | Got x it1 =>
          match zip_next its' with
          | ZipYield xs its1 => ZipYield (x :: xs) (it1 :: its1)
          | ZipStop its1 => ZipStop (it1 :: its1)
          | ZipThrows e its1 => ZipThrows e (it1 :: its1)
          end
      end
  end.

(** The inner loop of [__iter__] over [zip(field_iters.keys(), field_data)]:
    a placeholder is skipped, a named item must carry the id the cut has
    when the item is reached, and its value is then written to the
    attribute named by the field.  [None] is the failed assertion. *)
Fixpoint attach_fields (cut : Cut) (field_data : list (string * Item))
    : option Cut :=
  match field_data with
  | [] => Some cut
  | (field, (maybe_manifest, data_path)) :: rest =>
      if is_None maybe_manifest then attach_fields cut rest
      else if Val_eqb (VStr (Pathlib.stem data_path)) (id cut)
           then attach_fields (setattr cut field maybe_manifest) rest
           else None
  end.

Definition apply_cut_map_fn (f : cut_map_fn) (cut : Cut) : Cut :=
  match f with
  | Some fn => fn cut
  | None => cut
  end.

(** What one shard's merge did: the records it yielded, how it ended, and
    what is left unread in the streams it had opened. *)
Record Merge : Type := mkMerge {
  yielded : list Cut;
  outcome : Outcome;
  cuts_left : Stream Cut;
  fields_left : list (Stream Item)
}.

Definition yield_first (cut : Cut) (m : Merge) : Merge :=
  mkMerge (cut :: yielded m) (outcome m) (cuts_left m) (fields_left m).

(** The loop over [zip] of the primary stream and every field stream, with
    the primary stream given by the records it still holds and by the way it
    ends. *)
Fixpoint merge_loop (origin : Path) (f : cut_map_fn) (keys : list string)
    (cuts : list Cut) (cuts_end : option exn) (field_iters : list (Stream Item))
    : Merge :=
  match cuts with
  | [] =>
      mkMerge []
        (match cuts_end with None => Finished | Some e => Raised e end)
        (mkStream [] cuts_end) field_iters
  | cut :: cuts' =>
      let cuts1 := mkStream cuts' cuts_end in
      match zip_next field_iters with
      | ZipStop its1 => mkMerge [] Finished cuts1 its1
      | ZipThrows e its1 => mkMerge [] (Raised e) cuts1 its1
      | ZipYield field_data its1 =>
          match attach_fields cut (combine keys field_data) with
          | None => mkMerge [] (Raised AssertionError) cuts1 its1
          | Some cut1 =>
              let cut2 := set_shard_origin cut1 origin in
              let cut3 := apply_cut_map_fn f cut2 in
              yield_first cut3 (merge_loop origin f keys cuts' cuts_end its1)
          end
      end
  end.

(** [TarIterator(path) if extension_contains(".tar", path) else
    _jsonl_tar_adaptor(LazyJsonlIterator(path), field=field)]. *)
Definition open_field (w : World) (field : string) (path : Path)
    : Stream Item :=
  if extension_contains ".tar" path then TarIterator w path
  else _jsonl_tar_adaptor (LazyJsonlIterator w path) field.

(** [field_paths] and [field_iters]: every field of the shard but the
    primary one, opened for streaming. *)
Definition field_paths_of (shard : Shard) : Py.dict Path :=
  filter (fun '(field, _) => negb (String.eqb field "cuts")) shard.

Definition field_iters_of (w : World) (shard : Shard)
    : Py.dict (Stream Item) :=
  map (fun '(field, path) => (field, open_field w field path))
      (field_paths_of shard).

(** The body of the loop over shards in [__iter__]: open the streams of
    one shard and merge them. *)
Definition iter_shard (w : World) (shard : Shard) (f : cut_map_fn) : Merge :=
  match Py.dict_get shard "cuts" with
  | None => mkMerge [] (Raised KeyError) (mkStream [] None) []
  | Some cuts_path =>
      let cuts := LazyManifestIterator w cuts_path in
      let field_iters := field_iters_of w shard in
      merge_loop cuts_path f (Py.dict_keys field_iters)
                 (items cuts) (raises cuts) (Py.dict_values field_iters)
  end.

(** The loop over [zip(shards, self.cut_map_fns)]: the merges are
    concatenated, and an exception ends the whole iteration. *)
Fixpoint iter_shards (w : World) (pairs : list (Shard * cut_map_fn))
    : list Cut * Outcome :=
  match pairs with
  | [] => ([], Finished)
  | (shard, f) :: rest =>
      let m := iter_shard w shard f in
      match outcome m with
      | Finished =>
          let (ys, o) := iter_shards w rest in (yielded m ++ ys, o)
      | Raised e => (yielded m, Raised e)
      end
  end.

(** ** A pass, step by step *)

(** What a pass does that can be observed from outside it: an iterator is
    constructed over a location ([LazyManifestIterator(path)],
    [TarIterator(path)] or [LazyJsonlIterator(path)]), or a record is
    yielded. *)
Inductive Event : Type :=
| Opens (path : Path)
| Yields (cut : Cut).


(** The events of the loop body for one shard: the primary stream is
    constructed first, then one stream per other field in the order of
    [field_paths], then the merge yields its records.  [shard["cuts"]] on
    a shard without that key raises before anything is constructed. *)
Definition shard_events (w : World) (shard : Shard) (f : cut_map_fn)
    : list Event :=
  match Py.dict_get shard "cuts" with
  | None => []
  | Some cuts_path =>
      Opens cuts_path
      :: map Opens (Py.dict_values (field_paths_of shard))
      ++ map Yields (yielded (iter_shard w shard f))
  end.

(** The loop over [zip(shards, self.cut_map_fns)] with its events. *)
Fixpoint iter_events (w : World) (pairs : list (Shard * cut_map_fn))
    : list Event * Outcome :=
  match pairs with
  | [] => ([], Finished)
  | (shard, f) :: rest =>
      let m := iter_shard w shard f in
      match outcome m with
      | Finished =>
          let (es, o) := iter_events w rest in (shard_events w shard f ++ es, o)
      | Raised e => (shard_events w shard f, Raised e)
      end
  end.

(** ** The lazy source *)

Record LazySharIterator : Type := mkLazySharIterator {
  split_for_dataloading : bool;
  _len : option nat;
  in_dir : option Path;
  fields : list string;
  streams : Py.dict (list Path);
  num_shards : nat;
  shards : list Shard;
  cut_map_fns : list cut_map_fn
}.

(** The attributes set by [_init_from_inputs] or [_init_from_dir]. *)
Record Resolved : Type := mkResolved {
  r_in_dir : option Path;
  r_fields : list string;
  r_streams : Py.dict (list Path)
}.

Definition _init_from_inputs (fields : Py.dict (list Path)) : Result Resolved :=
  if negb (Py.dict_mem fields "cuts") then Err AssertionError
  else
    let self_fields := Py.set_of (Py.dict_keys fields) in
    let self_fields := Py.set_remove "cuts" self_fields in
    Ok (mkResolved None self_fields fields).

(** [p.stem.split(".")[0]] and [p.name.split(".")[0]]. *)
Definition stem_head (p : Path) : string :=
  Py.first (Py.split Pathlib.dot (Pathlib.stem p)).

Definition name_head (p : Path) : string :=
  Py.first (Py.split Pathlib.dot (Pathlib.name p)).

(** [for field in self.fields: self.streams[field] = sorted(...)]. *)
Fixpoint add_field_streams (all_paths : list Path) (fields : list string)
    (streams : Py.dict (list Path)) : Py.dict (list Path) :=
  match fields with
  | [] => streams
  | field :: fields' =>
      add_field_streams all_paths fields'
        (Py.dict_set streams field
           (Py.sorted
              (filter (fun p => String.eqb (name_head p) field) all_paths)))
  end.

Definition _init_from_dir (w : World) (in_dir : Path) : Result Resolved :=
  let all_paths := glob_star w in_dir in
  let self_fields := Py.set_of (map stem_head all_paths) in
  if negb (Py.set_mem "cuts" self_fields) then Err AssertionError
  else
    let self_fields := Py.set_remove "cuts" self_fields in
    let streams :=
      [("cuts",
        Py.sorted
          (filter (fun p => String.eqb (name_head p) "cuts"
                            && extension_contains ".jsonl" p)
                  all_paths))] in
    Ok (mkResolved (Some in_dir) self_fields
          (add_field_streams all_paths self_fields streams)).

(** [for field in self.fields: assert len(self.streams[field]) == self.num_shards]. *)
Fixpoint check_fields (streams : Py.dict (list Path)) (num_shards : nat)
    (fields : list string) : Result unit :=
  match fields with
  | [] => Ok tt
  | field :: fields' =>
      match Py.dict_get streams field with
      | None => Err KeyError
      | Some locations =>
          if Nat.eqb (List.length locations) num_shards
          then check_fields streams num_shards fields'
          else Err AssertionError
      end
  end.

(** [{field: self.streams[field][shard_idx] for field in self.streams}],
    the keys still to be visited being [keys]. *)
Fixpoint shard_of (streams : Py.dict (list Path)) (shard_idx : nat)
    (keys : list string) (acc : Shard) : Result Shard :=
  match keys with
  | [] => Ok acc
  | field :: keys' =>
      match Py.dict_get streams field with
      | None => Err KeyError
      | Some locations =>
          match nth_error locations shard_idx with
          | None => Err IndexError
          | Some path =>
              shard_of streams shard_idx keys' (Py.dict_set acc field path)
          end
      end
  end.

(** [[... for shard_idx in range(self.num_shards)]]. *)
Fixpoint shards_of (streams : Py.dict (list Path)) (idxs : list nat)
    : Result (list Shard) :=
  match idxs with
  | [] => Ok []
  | shard_idx :: idxs' =>
      match shard_of streams shard_idx (Py.dict_keys streams) [] with
      | Err e => Err e
      | Ok shard =>
          match shards_of streams idxs' with
          | Err e => Err e
          | Ok rest => Ok (shard :: rest)
          end
      end
  end.

(** [if in_dir is not None: self._init_from_dir(in_dir)
    else: self._init_from_inputs(fields)]. *)
Definition init_mode (w : World) (fields : option (Py.dict (list Path)))
    (in_dir : option Path) : Result Resolved :=
  match in_dir with
  | Some d => _init_from_dir w d
  | None =>
      match fields with
      | Some fs => _init_from_inputs fs
      | None => Err AssertionError
      end
  end.

(** [self.num_shards], the check of every field's shard count against it,
    and [self.shards] before any shuffle. *)
Definition init_shards (r : Resolved) : Result (nat * list Shard) :=
  match Py.dict_get (r_streams r) "cuts" with
  | None => Err KeyError
  | Some primary =>
      let num_shards := List.length primary in
      match check_fields (r_streams r) num_shards (r_fields r) with
      | Err e => Err e
      | Ok _ =>
          match shards_of (r_streams r) (seq 0 num_shards) with
          | Err e => Err e
          | Ok shards => Ok (num_shards, shards)
          end
      end
  end.

Definition __init__ `{Random} (w : World)
    (fields : option (Py.dict (list Path))) (in_dir : option Path)
    (split_for_dataloading shuffle_shards : bool) (seed : Z)
    (cut_map_fns : option (list cut_map_fn)) : Result LazySharIterator :=
  if negb (exactly_one_not_null fields in_dir) then Err AssertionError
  else
    match init_mode w fields in_dir with
    | Err e => Err e
    | Ok r =>
        match init_shards r with
        | Err e => Err e
        | Ok (num_shards, shards) =>
            let cut_map_fns := ifnone cut_map_fns (repeat None num_shards) in
            let shards :=
              if shuffle_shards then shuffle seed shards else shards in
            Ok (mkLazySharIterator split_for_dataloading None
                  (r_in_dir r) (r_fields r) (r_streams r)
                  num_shards shards cut_map_fns)
        end
    end.

(** A method: from the instance to a result and the instance afterwards. *)
Definition Method (A : Type) : Type :=
  LazySharIterator -> A * LazySharIterator.

Definition shards_for_dataloading (w : World) (self : LazySharIterator)
    : list Shard :=
  split_by_worker w (split_by_node w (shards self)).

(** [__iter__], consumed to its end: the records yielded and the way the
    generator ends. *)
Definition __iter__ (w : World) : Method (list Cut * Outcome) :=
  fun self =>
    let shards :=
      if split_for_dataloading self then shards_for_dataloading w self
      else shards self in
    (iter_shards w (combine shards (cut_map_fns self)), self).

(** [__iter__] with the events of the pass. *)
Definition __iter__traced (w : World) : Method (list Event * Outcome) :=
  fun self =>
    let shards :=
      if split_for_dataloading self then shards_for_dataloading w self
      else shards self in
    (iter_events w (combine shards (cut_map_fns self)), self).

Definition set_len (self : LazySharIterator) (n : nat) : LazySharIterator :=
  mkLazySharIterator (split_for_dataloading self) (Some n) (in_dir self)
    (fields self) (streams self) (num_shards self) (shards self)
    (cut_map_fns self).

(** [__len__]: the length, and the files whose lines were counted by the
    call. *)
Definition __len__ (w : World) : Method (Result nat * list Path) :=
  fun self =>
    match _len self with
    | Some n => ((Ok n, []), self)
    | None =>
        match Py.dict_get (streams self) "cuts" with
        | None => ((Err KeyError, []), self)
        | Some primary =>
            let n := Py.sum (map (count_newlines_fast w) primary) in
            ((Ok n, primary), set_len self n)
        end
    end.

(** ** CPython's generator

    [random.Random] is the Mersenne Twister MT19937 of CPython's
    [_randommodule.c], seeded with [init_by_array] over the 32-bit digits of
    [abs(seed)]; [_randbelow(n)] draws [n.bit_length()] bits until the draw
    is below [n].  Words are 32-bit unsigned integers held in [Z]. *)

Module MT19937.

Definition N : nat := 624.
Definition M : nat := 397.
Definition MATRIX_A : Z := 0x9908b0df%Z.
Definition UPPER_MASK : Z := 0x80000000%Z.
Definition LOWER_MASK : Z := 0x7fffffff%Z.

Definition u32 (z : Z) : Z := Z.land z 0xffffffff%Z.

Record state : Type := mkState {
  mt : list Z;
  index : nat
}.

Definition at_ (mt : list Z) (i : nat) : Z := nth i mt 0%Z.

(** [mt[mti] = 1812433253 * (mt[mti-1] ^ (mt[mti-1] >> 30)) + mti]. *)
Fixpoint init_genrand_from (n : nat) (mti : Z) (prev : Z) : list Z :=
  match n with
  | 0 => []
  | S n' =>
      let x := u32 (1812433253 * Z.lxor prev (Z.shiftr prev 30) + mti)%Z in
      x :: init_genrand_from n' (mti + 1)%Z x
  end.

Definition init_genrand (s : Z) : list Z :=
  u32 s :: init_genrand_from (N - 1) 1%Z (u32 s).

(** The first loop of [init_by_array], [k] iterations to go. *)
Fixpoint init_key_loop (k : nat) (init_key : list Z) (mt : list Z)
    (i j : nat) : list Z * nat :=
  match k with
  | 0 => (mt, i)
  | S k' =>
      let prev := at_ mt (i - 1) in
      let v :=
        u32 (Z.lxor (at_ mt i)
                    (u32 (Z.lxor prev (Z.shiftr prev 30) * 1664525)%Z)
             + at_ init_key j + Z.of_nat j)%Z in
      let mt := list_set mt i v in
      let i := i + 1 in
      let j := j + 1 in
      let '(mt, i) :=
        if (N <=? i)%nat then (list_set mt 0 (at_ mt (N - 1)), 1) else (mt, i) in
      let j := if (List.length init_key <=? j)%nat then 0 else j in
      init_key_loop k' init_key mt i j
  end.

(** The second loop of [init_by_array]. *)
Fixpoint init_mix_loop (k : nat) (mt : list Z) (i : nat) : list Z :=
  match k with
  | 0 => mt
  | S k' =>
      let prev := at_ mt (i - 1) in
      let v :=
        u32 (Z.lxor (at_ mt i)
                    (u32 (Z.lxor prev (Z.shiftr prev 30) * 1566083941)%Z)
             - Z.of_nat i)%Z in
      let mt := list_set mt i v in
      let i := i + 1 in
      let '(mt, i) :=
        if (N <=? i)%nat then (list_set mt 0 (at_ mt (N - 1)), 1) else (mt, i) in
      init_mix_loop k' mt i
  end.

Definition init_by_array (init_key : list Z) : state :=
  let mt := init_genrand 19650218%Z in
  let k := Nat.max N (List.length init_key) in
  let '(mt, i) := init_key_loop k init_key mt 1 0 in
  let mt := init_mix_loop (N - 1) mt i in
  mkState (list_set mt 0 0x80000000%Z) N.

(** The 32-bit digits of a non-negative integer, least significant first;
    [n] bounds their number. *)
Fixpoint digits32 (n : nat) (z : Z) : list Z :=
  match n with
  | 0 => []
  | S n' =>
      if (z <? 0x100000000)%Z then [z]
      else u32 z :: digits32 n' (Z.shiftr z 32)
  end.

Definition seed (a : Z) : state :=
  let n := Z.abs a in
  init_by_array (digits32 (S (Z.to_nat (Z.log2 n))) n).

(** The three loops that regenerate the [N] words: word [kk] is rebuilt
    from words [kk], [kk + 1] and [kk + M], indices wrapping at [N]. *)
Fixpoint twist (n : nat) (kk : nat) (mt : list Z) : list Z :=
  match n with
  | 0 => mt
  | S n' =>
      let y := Z.lor (Z.land (at_ mt kk) UPPER_MASK)
                     (Z.land (at_ mt ((kk + 1) mod N)) LOWER_MASK) in
      let v := Z.lxor (Z.lxor (at_ mt ((kk + M) mod N)) (Z.shiftr y 1))
                      (if Z.odd y then MATRIX_A else 0%Z) in
      twist n' (kk + 1) (list_set mt kk v)
  end.

Definition genrand_uint32 (s : state) : Z * state :=
  let s := if (N <=? index s)%nat then mkState (twist N 0 (mt s)) 0 else s in
  let y := at_ (mt s) (index s) in
  let y := Z.lxor y (Z.shiftr y 11) in
  let y := Z.lxor y (Z.land (u32 (Z.shiftl y 7)) 0x9d2c5680%Z) in
  let y := Z.lxor y (Z.land (u32 (Z.shiftl y 15)) 0xefc60000%Z) in
  let y := Z.lxor y (Z.shiftr y 18) in
  (y, mkState (mt s) (index s + 1)).

(** [getrandbits(k)] for [0 < k <= 32]. *)
Definition getrandbits (s : state) (k : Z) : Z * state :=
  let (y, s') := genrand_uint32 s in (Z.shiftr y (32 - k)%Z, s').

Definition bit_length (n : Z) : Z :=
  if (n =? 0)%Z then 0%Z else (Z.log2 n + 1)%Z.

(** [r = getrandbits(k); while r >= n: r = getrandbits(k)], for at most
    [S fuel] draws; each draw is below [n] with probability above one
    half. *)
Fixpoint randbelow_loop (fuel : nat) (n k : Z) (s : state) : Z * state :=
  let (r, s') := getrandbits s k in
  if (r <? n)%Z then (r, s')
  else match fuel with
       | 0 => (0%Z, s')
       | S fuel' => randbelow_loop fuel' n k s'
       end.

Definition _randbelow (s : state) (n : nat) : nat * state :=
  let (r, s') :=
    randbelow_loop 4096 (Z.of_nat n) (bit_length (Z.of_nat n)) s in
  (Z.to_nat r, s').

End MT19937.

#[export] Instance CPython : Random := {|
  rng := MT19937.state;
  Random_seed := MT19937.seed;
  randbelow := MT19937._randbelow
|}.


(** ** The specification's words

    The conditions under which the specification says construction fails,
    stated on the inputs.  In directory mode a file belongs to the field
    named by the leading component of its name, before the first extension
    separator; the primary field's files are those of its group that carry
    the line-oriented manifest extension. *)

Definition group_of (w : World) (d : Path) (field : string) : list Path :=
  filter (fun p => String.eqb (name_head p) field) (glob_star w d).

Definition primary_files (w : World) (d : Path) : list Path :=
  filter (fun p => String.eqb (name_head p) "cuts"
                   && extension_contains ".jsonl" p)
         (glob_star w d).

Definition primary_locations (w : World)
    (fields : option (Py.dict (list Path))) (in_dir : option Path)
    : list Path :=
  match in_dir, fields with
  | Some d, _ => primary_files w d
  | None, Some fs => ifnone (Py.dict_get fs "cuts") []
  | None, None => []
  end.

Inductive ConfigurationError (w : World)
    : option (Py.dict (list Path)) -> option Path -> Prop :=
| neither_supplied :
    ConfigurationError w None None
| both_supplied fs d :
    ConfigurationError w (Some fs) (Some d)
| primary_missing_from_mapping fs :
    Py.dict_get fs "cuts" = None ->
    ConfigurationError w (Some fs) None
| primary_missing_from_directory d :
    (forall p, In p (glob_star w d) -> name_head p <> "cuts") ->
    ConfigurationError w None (Some d)
| shard_count_disagrees_in_mapping fs field locations primary :
    Py.dict_get fs field = Some locations ->
    Py.dict_get fs "cuts" = Some primary ->
    List.length locations <> List.length primary ->
    ConfigurationError w (Some fs) None
| shard_count_disagrees_in_directory d field :
    field <> "cuts" ->
    group_of w d field <> [] ->
    List.length (group_of w d field) <> List.length (primary_files w d) ->
    ConfigurationError w None (Some d).

(** What construction does, set against what the specification says:
    either the inputs are a configuration error and construction fails on an
    assertion, or they are not and construction gives an instance with as
    many shards as the primary field has locations. *)
Definition resolves `{Random} (w : World)
    (fields : option (Py.dict (list Path))) (in_dir : option Path)
    (split shuffle_shards : bool) (seed : Z)
    (fns : option (list cut_map_fn)) : Prop :=
  (ConfigurationError w fields in_dir /\
   __init__ w fields in_dir split shuffle_shards seed fns
   = Err AssertionError)
  \/
  (~ ConfigurationError w fields in_dir /\
   exists self,
     __init__ w fields in_dir split shuffle_shards seed fns = Ok self /\
     num_shards self = List.length (primary_locations w fields in_dir) /\
     List.length (shards self) = num_shards self).

(** A record id that can be the stem of a file name: not empty, and
    without a path separator. *)
Fixpoint has_char (c : ascii) (s : string) : bool :=
  match s with
  | EmptyString => false
  | String a s' => Ascii.eqb a c || has_char c s'
  end.

Definition path_safe (s : string) : bool :=
  negb (String.eqb s EmptyString) && negb (has_char Pathlib.slash s).

(** The pair the specification says the adaptor emits for a line: the
    value the line has for the field, or none, and a pseudo-name whose stem
    is the line's record id. *)
Definition adaptor_pair (field : string) (line : JsonlItem) (pair : Item)
    : Prop :=
  fst pair = ifnone (Py.dict_get line field) VNone /\
  exists cut_id,
    Py.dict_get line "cut_id" = Some cut_id /\
    Pathlib.stem (snd pair) = format cut_id.

(** The adaptor's contract as the specification states it, for every
    stream of lines. *)
Definition adaptor_contract_as_stated : Prop :=
  forall (lines : list JsonlItem) (field : string),
    let out := _jsonl_tar_adaptor (stream_of lines) field in
    raises out = None /\ Forall2 (adaptor_pair field) lines (items out).

(** ** Positions in a stream *)

(** The stream after [n] of its items have been read. *)
Definition advance {A} (n : nat) (it : Stream A) : Stream A :=
  mkStream (skipn n (items it)) (raises it).

(** The item a field stream is about to produce. *)
Definition head_item (it : Stream Item) : Item :=
  hd (VNone, EmptyString) (items it).

(** How many items were read between two states of a stream. *)
Definition consumed {A} (before after : Stream A) : nat :=
  List.length (items before) - List.length (items after).

(** The length of the shortest of the primary stream and the field
    streams. *)
Definition min_length (cuts : list Cut) (field_iters : list (Stream Item))
    : nat :=
  fold_right (fun it n => Nat.min (List.length (items it)) n)
             (List.length cuts) field_iters.

(** The contract of [_randbelow]: the draw is below its bound. *)
Definition randbelow_in_range `{Random} : Prop :=
  forall (g : rng) (n : nat), 0 < n -> fst (randbelow g n) < n.

(** ** The claims that fail as stated *)

(** The fault scenario as stated: a shard whose manifest holds [a, b] and
    whose one field stream has a second item with another stem than [b]'s id
    yields one record and then raises the synchronization fault. *)
Definition fault_scenario_as_stated : Prop :=
  forall (w : World) (shard : Shard) (f : cut_map_fn) (cuts_path : Path)
         (a b : Cut) (field : string) (it : Stream Item)
         (first second : Item) (rest : list Item),
    Py.dict_get shard "cuts" = Some cuts_path ->
    manifest_cuts w cuts_path = [a; b] ->
    field_iters_of w shard = [(field, it)] ->
    items it = first :: second :: rest ->
    VStr (Pathlib.stem (snd second)) <> id b ->
    List.length (yielded (iter_shard w shard f)) = 1 /\
    outcome (iter_shard w shard f) = Raised AssertionError.

(** The lockstep walk as stated: when some field stream is shorter than
    the primary stream and the merge ends quietly, every stream has been
    advanced by exactly one item per record yielded. *)
Definition lockstep_as_stated : Prop :=
  forall (origin : Path) (f : cut_map_fn) (keys : list string)
         (cuts : list Cut) (field_iters : list (Stream Item)),
    List.length keys = List.length field_iters ->
    Forall (fun it => raises it = None) field_iters ->
    Exists (fun it => List.length (items it) < List.length cuts)
           field_iters ->
    let m := merge_loop origin f keys cuts None field_iters in
    outcome m = Finished ->
    consumed (stream_of cuts) (cuts_left m) = List.length (yielded m) /\
    Forall2 (fun it it' => consumed it it' = List.length (yielded m))
            field_iters (fields_left m).


(** ** Shard descriptors against the streams *)

(** [self.streams[field][shard_idx]], when both lookups succeed. *)
Definition location_at (streams : Py.dict (list Path)) (field : string)
    (shard_idx : nat) : option Path :=
  match Py.dict_get streams field with
  | Some locations => nth_error locations shard_idx
  | None => None
  end.

(** A shard descriptor that holds, for every field, the field's
    location of one and the same index. *)
Definition aligned (streams : Py.dict (list Path)) (shard_idx : nat)
    (shard : Shard) : Prop :=
  forall field, Py.dict_get shard field = location_at streams field shard_idx.

(** Two dictionaries that answer every lookup alike. *)
Definition same_mapping {V} (d1 d2 : Py.dict V) : Prop :=
  forall k, Py.dict_get d1 k = Py.dict_get d2 k.

(** [setattr(cut, field, value)] unless the value is a placeholder. *)
Definition attach_value (cut : Cut) (field : string) (v : Val) : Cut :=
  if is_None v then cut else setattr cut field v.

(** ** Fixtures *)

Definition no_files : World :=
  mkWorld (fun _ => []) (fun _ => []) (fun _ => []) (fun _ => [])
          (fun _ => EmptyString) (fun l => l) (fun l => l) 0.

(** Two primary shards of one record each: [a] in shard 0, [b] in
    shard 1. *)
Definition two_shards : World :=
  mkWorld (fun _ => [])
          (fun p => if String.eqb p "cuts.000000.jsonl" then [mkCut "a" [] None]
                    else if String.eqb p "cuts.000001.jsonl"
                         then [mkCut "b" [] None]
                         else [])
          (fun _ => []) (fun _ => [])
          (fun p => if String.eqb p "cuts.000000.jsonl"
                    then String newline EmptyString else EmptyString)
          (fun l => l) (fun l => l) 0.

(** The two shards seen from the second of two workers, which reads the
    shards after the first. *)
Definition two_shards_second_worker : World :=
  mkWorld (glob_star two_shards) (manifest_cuts two_shards)
          (tar_items two_shards) (jsonl_items two_shards)
          (file_text two_shards) (fun l => l) (fun l => skipn 1 l) 0.

(** A transform that tags the record with a marker attribute. *)
Definition mark (m : string) : cut_map_fn :=
  Some (fun cut => setattr cut "marker" (VStr m)).

(** The directory of the specification's scenario, listed out of order,
    with one record per shard and its recording. *)
Definition shar_dir_listing : list Path :=
  ["some_dir/recording.000001.tar"; "some_dir/cuts.000001.jsonl";
   "some_dir/recording.000000.tar"; "some_dir/cuts.000000.jsonl"].

Definition shar_dir_at (random_state : Z) : World :=
  mkWorld (fun d => if String.eqb d "some_dir" then shar_dir_listing else [])
          (fun p => if String.eqb p "some_dir/cuts.000000.jsonl"
                    then [mkCut "a" [] None]
                    else if String.eqb p "some_dir/cuts.000001.jsonl"
                         then [mkCut "b" [] None]
                         else [])
          (fun p => if String.eqb p "some_dir/recording.000000.tar"
                    then [(VStr "rec-a", "a.flac")]
                    else if String.eqb p "some_dir/recording.000001.tar"
                         then [(VStr "rec-b", "b.flac")]
                         else [])
          (fun _ => []) (fun _ => EmptyString) (fun l => l) (fun l => l) random_state.

Definition shar_dir : World := shar_dir_at 0.

(** A shard of two records with a feature archive whose second item is
    named after another record: with a value in [misnamed_item], as a
    placeholder in [misnamed_placeholder]. *)
Definition feat_shard : Shard :=
  [("cuts", "cuts.000000.jsonl"); ("feat", "feat.000000.tar")].

Definition feat_world (second : Item) : World :=
  mkWorld (fun _ => [])
          (fun p => if String.eqb p "cuts.000000.jsonl"
                    then [mkCut "a" [] None; mkCut "b" [] None]
                    else [])
          (fun p => if String.eqb p "feat.000000.tar"
                    then [(VStr "feat-a", "a.bin"); second]
                    else [])
          (fun _ => []) (fun _ => EmptyString) (fun l => l) (fun l => l) 0.

Definition misnamed_item : World := feat_world (VStr "feat-c", "c.bin").

(** A shard of one record with a field named ['id'], whose item is named
    after the record and holds another id, and a feature archive whose item
    is named after the record too. *)
Definition renaming_shard : Shard :=
  [("cuts", "cuts.000000.jsonl"); ("id", "id.000000.tar");
   ("feat", "feat.000000.tar")].

Definition renaming_world : World :=
  mkWorld (fun _ => [])
          (fun p => if String.eqb p "cuts.000000.jsonl"
                    then [mkCut "a" [] None]
                    else [])
          (fun p => if String.eqb p "id.000000.tar"
                    then [(VStr "z", "a.txt")]
                    else if String.eqb p "feat.000000.tar"
                         then [(VStr "feat-a", "a.bin")]
                         else [])
          (fun _ => []) (fun _ => EmptyString) (fun l => l) (fun l => l) 0.
Definition misnamed_placeholder : World := feat_world (VNone, "c.nodata").


(** Three records against a field stream of two items. *)
Definition three_cuts : list Cut :=
  [mkCut "a" [] None; mkCut "b" [] None; mkCut "c" [] None].

Definition two_items : list (Stream Item) :=
  [stream_of [(VStr "feat-a", "a.bin"); (VNone, "b.bin")]].

(** The same directory, listed in the opposite order. *)
Definition shar_dir_relisted : World :=
  mkWorld (fun d => if String.eqb d "some_dir" then rev shar_dir_listing
                    else [])
          (manifest_cuts shar_dir) (tar_items shar_dir) (jsonl_items shar_dir)
          (file_text shar_dir) (fun l => l) (fun l => l) 0.

(** A shard of two records whose feature values are lines of a JSONL
    manifest; the second line has no value for the field.  In
    [jsonl_world_without_id] the second line has no record id either. *)
Definition jsonl_shard : Shard :=
  [("cuts", "cuts.000000.jsonl"); ("feat", "feat.000000.jsonl")].

Definition jsonl_world_with (second : JsonlItem) : World :=
  mkWorld (fun _ => [])
          (fun p => if String.eqb p "cuts.000000.jsonl"
                    then [mkCut "a" [] None; mkCut "b" [] None]
                    else [])
          (fun _ => [])
          (fun p => if String.eqb p "feat.000000.jsonl"
                    then [[("cut_id", VStr "a"); ("feat", VInt 7)]; second]
                    else [])
          (fun _ => EmptyString) (fun l => l) (fun l => l) 0.

Definition jsonl_world : World := jsonl_world_with [("cut_id", VStr "b")].
Definition jsonl_world_without_id : World := jsonl_world_with [].

(** * Properties *)

(** ** The built-ins behave as Python's *)

Example stem_tar :
  Pathlib.stem "some_dir/recording.000000.tar" = "recording.000000".
Proof. reflexivity. Qed.

Example suffixes_jsonl_gz :
  Pathlib.suffixes "some_dir/cuts.000000.jsonl.gz"
  = [".000000"; ".jsonl"; ".gz"].
Proof. reflexivity. Qed.

Example stem_hidden : Pathlib.stem ".dummy" = ".dummy".
Proof. reflexivity. Qed.

Example format_values :
  map format [VNone; VStr "utt.1"; VInt 0; VInt (-5); VInt 1234]
  = ["None"; "utt.1"; "0"; "-5"; "1234"].
Proof. reflexivity. Qed.

Example name_trailing_slash : Pathlib.name "some_dir/x/" = "x".
Proof. reflexivity. Qed.

Example sorted_names :
  Py.sorted ["b.1"; "a.10"; "a.1"; "B"] = ["B"; "a.1"; "a.10"; "b.1"].
Proof. reflexivity. Qed.

(** The first two words of [random.Random(42)], and two of its shuffles. *)
Example mt_seed_42 :
  let (y1, s1) := MT19937.genrand_uint32 (MT19937.seed 42) in
  let (y2, _) := MT19937.genrand_uint32 s1 in
  (y1, y2) = (2746317213, 478163327)%Z.
Proof. vm_compute. reflexivity. Qed.

Example shuffle_42_range_10 :
  shuffle 42 (seq 0 10) = [7; 3; 2; 8; 5; 6; 9; 4; 0; 1].
Proof. vm_compute. reflexivity. Qed.

Example shuffle_42_pair : shuffle 42 [0; 1] = [1; 0].
Proof. vm_compute. reflexivity. Qed.

(** ** Sorting *)

Lemma insert_perm (x : string) (l : list string) :
  Permutation (Py.insert x l) (x :: l).
Proof.
  induction l as [|y l IH]; simpl.
  - apply Permutation_refl.
  - destruct (String.leb x y).
    + apply Permutation_refl.
    + eapply perm_trans; [apply perm_skip, IH | apply perm_swap].
Qed.

Lemma sorted_perm (l : list string) : Permutation (Py.sorted l) l.
Proof.
  induction l as [|x l IH]; simpl.
  - constructor.
  - eapply perm_trans; [apply insert_perm | apply perm_skip, IH].
Qed.

Lemma sorted_length (l : list string) :
  List.length (Py.sorted l) = List.length l.
Proof. apply Permutation_length, sorted_perm. Qed.

Lemma sorted_In (l : list string) (x : string) :
  In x (Py.sorted l) <-> In x l.
Proof.
  split; apply Permutation_in;
    [apply sorted_perm | apply Permutation_sym, sorted_perm].
Qed.

Lemma insert_HdRel (a x : string) (l : list string) :
  Py.str_le a x -> HdRel Py.str_le a l -> HdRel Py.str_le a (Py.insert x l).
Proof.
  intros Hax Hl. destruct l as [|y l]; simpl.
  - constructor. exact Hax.
  - destruct (String.leb x y); constructor.
    + exact Hax.
    + inversion Hl; assumption.
Qed.

Lemma insert_Sorted (x : string) (l : list string) :
  Sorted Py.str_le l -> Sorted Py.str_le (Py.insert x l).
Proof.
  induction 1 as [|y l Hs IH Hhd]; simpl.
  - repeat constructor.
  - destruct (String.leb x y) eqn:E.
    + constructor; [constructor; assumption | constructor; exact E].
    + constructor; [exact IH |].
      apply insert_HdRel; [| exact Hhd].
      destruct (String.leb_total x y) as [H | H]; [congruence | exact H].
Qed.

Lemma sorted_Sorted (l : list string) : Sorted Py.str_le (Py.sorted l).
Proof.
  induction l as [|x l IH]; simpl; [constructor | apply insert_Sorted, IH].
Qed.

(** ** Two passes over the same instance *)








(** Two passes over two shards, with the length asked for in between. *)
Example two_passes_over_two_shards :
  let self :=
    mkLazySharIterator false None None []
      [("cuts", ["cuts.000000.jsonl"; "cuts.000001.jsonl"])] 2
      [[("cuts", "cuts.000000.jsonl")]; [("cuts", "cuts.000001.jsonl")]]
      [None; None] in
  let pass := ([Opens "cuts.000000.jsonl";
                Yields (mkCut "a" [] (Some "cuts.000000.jsonl"));
                Opens "cuts.000001.jsonl";
                Yields (mkCut "b" [] (Some "cuts.000001.jsonl"))],
               Finished) in
  fst (__iter__traced two_shards self) = pass /\
  fst (__iter__traced two_shards (snd (__len__ two_shards self))) = pass.
Proof. split; reflexivity. Qed.

(** ** Construction *)

Lemma init_inv `{Random} w fields in_dir split shuffle_shards seed fns self :
  __init__ w fields in_dir split shuffle_shards seed fns = Ok self ->
  exists r shards0,
    exactly_one_not_null fields in_dir = true /\
    init_mode w fields in_dir = Ok r /\
    init_shards r = Ok (num_shards self, shards0) /\
    self = mkLazySharIterator split None (r_in_dir r) (r_fields r)
             (r_streams r) (num_shards self)
             (if shuffle_shards then shuffle seed shards0 else shards0)
             (ifnone fns (repeat None (num_shards self))).
Proof.
  unfold __init__.
  destruct (exactly_one_not_null fields in_dir) eqn:E1; simpl; [|discriminate].
  destruct (init_mode w fields in_dir) as [r|] eqn:E2; [|discriminate].
  destruct (init_shards r) as [[n shards0]|] eqn:E3; [|discriminate].
  intros E. inversion E; subst; clear E. simpl.
  exists r, shards0. repeat split. exact E3.
Qed.

Lemma init_shards_primary (r : Resolved) n shards0 :
  init_shards r = Ok (n, shards0) ->
  exists primary,
    Py.dict_get (r_streams r) "cuts" = Some primary /\
    n = List.length primary.
Proof.
  unfold init_shards.
  destruct (Py.dict_get (r_streams r) "cuts") as [primary|]; [|discriminate].
  destruct (check_fields _ _ _); [|discriminate].
  destruct (shards_of _ _); [|discriminate].
  intros E. inversion E. eauto.
Qed.

Lemma init_mode_glob (w1 w2 : World) fields in_dir :
  (forall d, in_dir = Some d -> glob_star w1 d = glob_star w2 d) ->
  init_mode w1 fields in_dir = init_mode w2 fields in_dir.
Proof.
  intros Hg. destruct in_dir as [d|]; simpl; [|reflexivity].
  unfold _init_from_dir. rewrite (Hg d eq_refl). reflexivity.
Qed.

(** ** Shuffling *)

(** C1 (the reader pairs transforms with shards by position, after the
    shuffle): over the two shards [cuts.000000.jsonl] (record [a]) and
    [cuts.000001.jsonl] (record [b]) with the transforms [f0, f1], shuffling
    with the default seed 42 exchanges the shards but leaves the transform
    list as it was, so the record of shard 1 goes through [f0] and the record
    of shard 0 through [f1]. *)
Theorem shuffle_pairs_transforms_by_position :
  exists self,
    __init__ two_shards
      (Some [("cuts", ["cuts.000000.jsonl"; "cuts.000001.jsonl"])]) None
      false true 42 (Some [mark "f0"; mark "f1"]) = Ok self /\
    fst (__iter__ two_shards self)
    = ([mkCut "b" [("marker", VStr "f0")] (Some "cuts.000001.jsonl");
        mkCut "a" [("marker", VStr "f1")] (Some "cuts.000000.jsonl")],
       Finished).
Proof.
  eexists. split; vm_compute; reflexivity.
Qed.

(** The split subset too is paired by position: the second worker reads
    shard 1 alone and passes its record through [f0]. *)
Example split_pairs_transforms_by_position :
  exists self,
    __init__ two_shards_second_worker
      (Some [("cuts", ["cuts.000000.jsonl"; "cuts.000001.jsonl"])]) None
      true false 42 (Some [mark "f0"; mark "f1"]) = Ok self /\
    fst (__iter__ two_shards_second_worker self)
    = ([mkCut "b" [("marker", VStr "f0")] (Some "cuts.000001.jsonl")],
       Finished).
Proof.
  eexists. split; vm_compute; reflexivity.
Qed.

(** Without the shuffle each record goes through its own shard's
    transform. *)
Example unshuffled_transforms :
  exists self,
    __init__ two_shards
      (Some [("cuts", ["cuts.000000.jsonl"; "cuts.000001.jsonl"])]) None
      false false 42 (Some [mark "f0"; mark "f1"]) = Ok self /\
    fst (__iter__ two_shards self)
    = ([mkCut "a" [("marker", VStr "f0")] (Some "cuts.000000.jsonl");
        mkCut "b" [("marker", VStr "f1")] (Some "cuts.000001.jsonl")],
       Finished).
Proof.
  eexists. split; vm_compute; reflexivity.
Qed.

(** C5: two instances constructed independently, in worlds that agree
    on the directory listing but on nothing else (the state of the
    process-wide generator included), over the same input and with the same
    seed, have the same shards in the same order, whatever their split flags
    and transforms; that order is [shuffle seed] of the unshuffled shard
    list, a function of the seed and the list alone. *)
Theorem shuffle_is_deterministic `{Random} (w1 w2 : World)
    fields in_dir split1 split2 seed fns1 fns2 :
  (forall d, in_dir = Some d -> glob_star w1 d = glob_star w2 d) ->
  match __init__ w1 fields in_dir split1 true seed fns1,
        __init__ w2 fields in_dir split2 true seed fns2 with
  | Ok self1, Ok self2 =>
      shards self1 = shards self2 /\
      exists self0,
        __init__ w1 fields in_dir split1 false seed fns1 = Ok self0 /\
        shards self1 = shuffle seed (shards self0)
  | Err e1, Err e2 => e1 = e2
  | _, _ => False
  end.
Proof.
  intros Hg. unfold __init__.
  rewrite (init_mode_glob w1 w2 fields in_dir Hg).
  destruct (exactly_one_not_null fields in_dir); simpl; [|reflexivity].
  destruct (init_mode w2 fields in_dir) as [r|]; [|reflexivity].
  destruct (init_shards r) as [[n shards0]|]; [|reflexivity].
  simpl. split; [reflexivity|]. eexists. split; reflexivity.
Qed.

Lemma shuffle_is_deterministic_witness :
  exists self1 self2,
    __init__ (shar_dir_at 1) None (Some "some_dir") false true 42 None
    = Ok self1 /\
    __init__ (shar_dir_at 2) None (Some "some_dir") true true 42
      (Some [mark "f0"; mark "f1"]) = Ok self2 /\
    shards self1 = shards self2.
Proof.
  pose proof (@shuffle_is_deterministic CPython (shar_dir_at 1) (shar_dir_at 2)
    None (Some "some_dir") false true 42%Z None (Some [mark "f0"; mark "f1"])
    (fun d _ => eq_refl)) as P.
  destruct (__init__ (shar_dir_at 1) None _ false true 42 None)
    as [self1|] eqn:E1; [|vm_compute in E1; discriminate E1].
  destruct (__init__ (shar_dir_at 2) None _ true true 42 _)
    as [self2|] eqn:E2; [|vm_compute in E2; discriminate E2].
  exists self1, self2. repeat split. apply P.
Defined.

(** ** Length *)

Lemma init_mode_inputs (w : World) fs r :
  init_mode w (Some fs) None = Ok r -> r_streams r = fs.
Proof.
  simpl. unfold _init_from_inputs.
  destruct (negb (Py.dict_mem fs "cuts")); [discriminate|].
  intros E. inversion E. reflexivity.
Qed.

(** C3: on a constructed instance [Length()] is the sum, over the
    locations of the primary field, of the newline counts of their files
    (in explicit mode these are the locations the caller listed under
    ["cuts"], as many as [num_shards]); the value does not depend on the split
    flag, the shuffle flag, the seed or the transforms the instance was
    built with; and it is computed once: the first call counts the lines of
    the primary files, every later call returns the stored value without
    counting anything, whatever the files have become. *)
Theorem length_counts_primary_lines `{Random} (w : World)
    fields in_dir split shuffle_shards seed fns self :
  __init__ w fields in_dir split shuffle_shards seed fns = Ok self ->
  exists primary self1,
    let n := Py.sum (map (count_newlines_fast w) primary) in
    Py.dict_get (streams self) "cuts" = Some primary /\
    num_shards self = List.length primary /\
    (forall fs, fields = Some fs -> Py.dict_get fs "cuts" = Some primary) /\
    __len__ w self = ((Ok n, primary), self1) /\
    (forall w', __len__ w' self1 = ((Ok n, []), self1)) /\
    (forall split' shuffle_shards' seed' fns' self',
       __init__ w fields in_dir split' shuffle_shards' seed' fns' = Ok self' ->
       fst (__len__ w self') = (Ok n, primary)).
Proof.
  intros Hinit.
  destruct (init_inv _ _ _ _ _ _ _ _ Hinit) as (r & shards0 & Hone & Hmode & Hsh & Hself).
  destruct (init_shards_primary _ _ _ Hsh) as (primary & Hprim & Hn).
  exists primary, (set_len self (Py.sum (map (count_newlines_fast w) primary))).
  assert (Hstreams : streams self = r_streams r) by (rewrite Hself; reflexivity).
  assert (Hlen : _len self = None) by (rewrite Hself; reflexivity).
  cbv zeta. refine (conj _ (conj _ (conj _ (conj _ (conj _ _))))).
  - rewrite Hstreams. exact Hprim.
  - exact Hn.
  - intros fs ->.
    destruct in_dir as [d|]; [discriminate Hone|].
    rewrite <- (init_mode_inputs _ _ _ Hmode). exact Hprim.
  - unfold __len__. rewrite Hlen, Hstreams, Hprim. reflexivity.
  - intros w'. reflexivity.
  - intros split' shuffle' seed' fns' self' Hinit'.
    destruct (init_inv _ _ _ _ _ _ _ _ Hinit')
      as (r' & shards0' & _ & Hmode' & _ & Hself').
    rewrite Hmode in Hmode'. inversion Hmode'; subst r'.
    unfold __len__. rewrite Hself'. simpl. rewrite Hprim. reflexivity.
Qed.

Lemma length_counts_primary_lines_witness :
  exists self self1,
    __init__ two_shards
      (Some [("cuts", ["cuts.000000.jsonl"; "cuts.000001.jsonl"])]) None
      false true 42 None = Ok self /\
    __len__ two_shards self
    = ((Ok 1, ["cuts.000000.jsonl"; "cuts.000001.jsonl"]), self1) /\
    __len__ no_files self1 = ((Ok 1, []), self1).
Proof.
  destruct (__init__ two_shards
      (Some [("cuts", ["cuts.000000.jsonl"; "cuts.000001.jsonl"])]) None
      false true 42 None) as [self|] eqn:E;
    [|vm_compute in E; discriminate E].
  destruct (length_counts_primary_lines two_shards _ _ _ _ _ _ _ E)
    as (primary & self1 & P).
  cbv zeta in P. destruct P as (_ & _ & Hfs & Hlen & Hmemo & _).
  specialize (Hfs _ eq_refl). simpl in Hfs. inversion Hfs; subst primary.
  exists self, self1. repeat split.
  - exact Hlen.
  - apply Hmemo.
Defined.

(** ** Dictionaries and sets *)

Lemma dict_get_set {V} (d : Py.dict V) (k k' : string) (v : V) :
  Py.dict_get (Py.dict_set d k v) k'
  = if String.eqb k k' then Some v else Py.dict_get d k'.
Proof.
  induction d as [|[k0 v0] d IH]; simpl.
  - reflexivity.
  - destruct (String.eqb k0 k) eqn:E0; simpl.
    + apply String.eqb_eq in E0. subst k0.
      destruct (String.eqb k k'); reflexivity.
    + destruct (String.eqb k0 k') eqn:E1.
      * apply String.eqb_eq in E1. subst k0.
        rewrite String.eqb_sym, E0. reflexivity.
      * exact IH.
Qed.

Lemma dict_get_keys {V} (d : Py.dict V) (k : string) :
  In k (Py.dict_keys d) <-> exists v, Py.dict_get d k = Some v.
Proof.
  induction d as [|[k0 v0] d IH]; simpl.
  - split; [tauto | intros [v Hv]; discriminate].
  - destruct (String.eqb k0 k) eqn:E.
    + apply String.eqb_eq in E. split; eauto.
    + apply String.eqb_neq in E. rewrite <- IH. tauto.
Qed.

Lemma dict_keys_set {V} (d : Py.dict V) (k k' : string) (v : V) :
  In k' (Py.dict_keys (Py.dict_set d k v)) <-> k = k' \/ In k' (Py.dict_keys d).
Proof.
  rewrite !dict_get_keys, dict_get_set.
  destruct (String.eqb k k') eqn:E.
  - apply String.eqb_eq in E. split; eauto.
  - apply String.eqb_neq in E. tauto.
Qed.

Lemma dict_mem_false {V} (d : Py.dict V) (k : string) :
  Py.dict_mem d k = false <-> Py.dict_get d k = None.
Proof.
  unfold Py.dict_mem. destruct (Py.dict_get d k); split; congruence.
Qed.

Lemma set_mem_In (k : string) (s : list string) :
  Py.set_mem k s = true <-> In k s.
Proof.
  unfold Py.set_mem. rewrite existsb_exists. split.
  - intros (x & Hx & E). apply String.eqb_eq in E. subst. exact Hx.
  - intros Hk. exists k. split; [exact Hk | apply String.eqb_refl].
Qed.

Lemma set_remove_of_In (k x : string) (l : list string) :
  In x (Py.set_remove k (Py.set_of l)) <-> In x l /\ x <> k.
Proof.
  unfold Py.set_remove, Py.set_of. split.
  - intros Hx. apply in_remove in Hx. destruct Hx as [Hx Hn].
    apply nodup_In in Hx. tauto.
  - intros [Hx Hn]. apply in_in_remove; [exact Hn | apply nodup_In, Hx].
Qed.

(** ** The leading name component *)

Lemma first_split_cons (sep c : ascii) (s : string) :
  Py.first (Py.split sep (String c s))
  = if Ascii.eqb c sep then EmptyString
    else String c (Py.first (Py.split sep s)).
Proof.
  simpl. destruct (Ascii.eqb c sep); [reflexivity|].
  destruct (Py.split sep s); reflexivity.
Qed.

Lemma first_split_prefix (sep : ascii) (s : string) (n : nat) :
  String.get n s = Some sep ->
  Py.first (Py.split sep (substring 0 n s)) = Py.first (Py.split sep s).
Proof.
  revert n. induction s as [|c s IH]; intros n Hget.
  - destruct n; discriminate.
  - destruct n as [|n].
    + simpl in Hget. inversion Hget; subst c.
      rewrite first_split_cons, Ascii.eqb_refl. reflexivity.
    + change (substring 0 (S n) (String c s))
        with (String c (substring 0 n s)).
      rewrite !first_split_cons.
      destruct (Ascii.eqb c sep); [reflexivity|].
      rewrite (IH n Hget). reflexivity.
Qed.

Lemma rfind_from_found (c : ascii) (s : string) (k r : Z) :
  (0 <= k)%Z -> Py.rfind_from c s k = r -> (0 <= r)%Z ->
  (k <= r)%Z /\ String.get (Z.to_nat (r - k)) s = Some c.
Proof.
  revert k r. induction s as [|a s IH]; intros k r Hk Hr Hpos; simpl in Hr.
  - lia.
  - destruct (0 <=? Py.rfind_from c s (k + 1))%Z eqn:E.
    + apply Z.leb_le in E.
      destruct (IH (k + 1)%Z r ltac:(lia) Hr Hpos) as [Hle Hget].
      split; [lia|].
      replace (Z.to_nat (r - k)) with (S (Z.to_nat (r - (k + 1)))) by lia.
      exact Hget.
    + destruct (Ascii.eqb a c) eqn:Ea; [|lia].
      apply Ascii.eqb_eq in Ea. subst.
      split; [lia|]. rewrite Z.sub_diag. reflexivity.
Qed.

(** [p.stem.split(".")[0]], by which the fields are discovered, is
    [p.name.split(".")[0]], by which the entries are grouped. *)
Lemma stem_head_name_head (p : Path) : stem_head p = name_head p.
Proof.
  unfold stem_head, name_head, Pathlib.stem.
  set (name := Pathlib.name p).
  destruct ((0 <? Py.rfind Pathlib.dot name)%Z
            && (Py.rfind Pathlib.dot name <? Py.len name - 1)%Z) eqn:E;
    [|reflexivity].
  apply andb_true_iff in E. destruct E as [E _]. apply Z.ltb_lt in E.
  destruct (rfind_from_found Pathlib.dot name 0 _ (Z.le_refl 0) eq_refl
              ltac:(unfold Py.rfind in E; lia)) as [_ Hget].
  rewrite Z.sub_0_r in Hget.
  unfold Py.slice_to. apply first_split_prefix. exact Hget.
Qed.

(** ** The shard resolver *)

Lemma check_fields_ok (streams : Py.dict (list Path)) (n : nat)
    (fields : list string) :
  check_fields streams n fields = Ok tt <->
  forall field, In field fields ->
    exists locations,
      Py.dict_get streams field = Some locations /\
      List.length locations = n.
Proof.
  induction fields as [|f fields IH]; simpl.
  - split; [intros _ field [] | reflexivity].
  - destruct (Py.dict_get streams f) as [locations|] eqn:E.
    + destruct (Nat.eqb (List.length locations) n) eqn:En.
      * apply Nat.eqb_eq in En. rewrite IH. split.
        -- intros Hall field [<- | Hin]; eauto.
        -- intros Hall field Hin. apply Hall. right. exact Hin.
      * apply Nat.eqb_neq in En. split; [discriminate|].
        intros Hall. destruct (Hall f (or_introl eq_refl)) as (l & El & Hl).
        congruence.
    + split; [discriminate|].
      intros Hall. destruct (Hall f (or_introl eq_refl)) as (l & El & _).
      congruence.
Qed.

Lemma check_fields_err (streams : Py.dict (list Path)) (n : nat)
    (fields : list string) (e : exn) :
  (forall field, In field fields -> In field (Py.dict_keys streams)) ->
  check_fields streams n fields = Err e ->
  e = AssertionError /\
  exists field locations,
    In field fields /\
    Py.dict_get streams field = Some locations /\
    List.length locations <> n.
Proof.
  induction fields as [|f fields IH]; simpl; intros Hkeys Herr.
  - discriminate.
  - destruct (Py.dict_get streams f) as [locations|] eqn:E.
    + destruct (Nat.eqb (List.length locations) n) eqn:En.
      * destruct IH as (He & field & l & Hin & Hl & Hn); auto.
        split; [exact He|]. exists field, l. auto.
      * apply Nat.eqb_neq in En. inversion Herr. split; [reflexivity|].
        exists f, locations. auto.
    + destruct (proj1 (dict_get_keys streams f) (Hkeys f (or_introl eq_refl)))
        as [v Hv].
      congruence.
Qed.

Lemma shard_of_total (streams : Py.dict (list Path)) (n i : nat)
    (keys : list string) (acc : Shard) :
  (forall k, In k keys ->
     exists locations,
       Py.dict_get streams k = Some locations /\ List.length locations = n) ->
  i < n ->
  exists shard, shard_of streams i keys acc = Ok shard.
Proof.
  revert acc. induction keys as [|k keys IH]; intros acc Hall Hi; simpl.
  - eauto.
  - destruct (Hall k (or_introl eq_refl)) as (locations & -> & Hlen).
    destruct (nth_error locations i) as [path|] eqn:E.
    + apply IH; [|exact Hi]. intros k' Hk'. apply Hall. right. exact Hk'.
    + apply nth_error_None in E. lia.
Qed.

Lemma shards_of_total (streams : Py.dict (list Path)) (n : nat)
    (idxs : list nat) :
  (forall k, In k (Py.dict_keys streams) ->
     exists locations,
       Py.dict_get streams k = Some locations /\ List.length locations = n) ->
  (forall i, In i idxs -> i < n) ->
  exists shards,
    shards_of streams idxs = Ok shards /\
    List.length shards = List.length idxs.
Proof.
  intros Hall. induction idxs as [|i idxs IH]; intros Hidx; simpl.
  - exists []. auto.
  - destruct (shard_of_total streams n i (Py.dict_keys streams) [] Hall
                (Hidx i (or_introl eq_refl))) as [shard ->].
    destruct IH as (shards & -> & Hlen).
    + intros j Hj. apply Hidx. right. exact Hj.
    + exists (shard :: shards). simpl. auto.
Qed.

(** Once the primary field is present and every other field has as many
    locations as it has, the shard descriptors are built. *)
Lemma init_shards_total (r : Resolved) (primary : list Path) :
  Py.dict_get (r_streams r) "cuts" = Some primary ->
  (forall k, In k (Py.dict_keys (r_streams r)) ->
     k = "cuts" \/ In k (r_fields r)) ->
  check_fields (r_streams r) (List.length primary) (r_fields r) = Ok tt ->
  exists shards,
    init_shards r = Ok (List.length primary, shards) /\
    List.length shards = List.length primary.
Proof.
  intros Hprim Hkeys Hcheck. unfold init_shards. rewrite Hprim, Hcheck.
  destruct (shards_of_total (r_streams r) (List.length primary)
              (seq 0 (List.length primary))) as (shards & -> & Hlen).
  - intros k Hk. destruct (Hkeys k Hk) as [-> | Hin].
    + eauto.
    + apply (proj1 (check_fields_ok _ _ _) Hcheck). exact Hin.
  - intros i Hi. apply in_seq in Hi. lia.
  - exists shards. rewrite Hlen, length_seq. auto.
Qed.

Lemma add_field_streams_get (all_paths : list Path) (fields : list string)
    (streams : Py.dict (list Path)) (k : string) :
  Py.dict_get (add_field_streams all_paths fields streams) k
  = if in_dec string_dec k fields
    then Some (Py.sorted
                 (filter (fun p => String.eqb (name_head p) k) all_paths))
    else Py.dict_get streams k.
Proof.
  revert streams. induction fields as [|f fields IH]; intros streams; simpl.
  - reflexivity.
  - rewrite IH. destruct (in_dec string_dec k fields) as [Hin | Hnin].
    + destruct (string_dec f k); reflexivity.
    + rewrite dict_get_set. destruct (string_dec f k) as [-> | Hne].
      * rewrite String.eqb_refl. reflexivity.
      * apply String.eqb_neq in Hne. rewrite Hne. reflexivity.
Qed.

(** ** The shuffle keeps the list's length *)

Lemma list_set_length {A} (l : list A) (i : nat) (x : A) :
  List.length (list_set l i x) = List.length l.
Proof.
  revert i. induction l as [|y l IH]; intros [|i]; simpl; auto.
Qed.

Lemma swap_length {A} (l : list A) (i j : nat) :
  List.length (swap l i j) = List.length l.
Proof.
  unfold swap. destruct (nth_error l i), (nth_error l j); auto.
  rewrite !list_set_length. reflexivity.
Qed.

Lemma shuffle_from_length `{Random} {A} (i : nat) (g : rng) (l : list A) :
  List.length (shuffle_from i g l) = List.length l.
Proof.
  revert g l. induction i as [|i IH]; intros g l; simpl; [reflexivity|].
  destruct (randbelow g _) as [j g'].
  rewrite IH. apply swap_length.
Qed.

Lemma shuffle_length `{Random} {A} (seed : Z) (l : list A) :
  List.length (shuffle seed l) = List.length l.
Proof. apply shuffle_from_length. Qed.

(** ** Construction fails exactly on a configuration error *)

Lemma init_of_shards `{Random} w fields in_dir split shuffle_shards seed fns
    (r : Resolved) (n : nat) (shards0 : list Shard) :
  exactly_one_not_null fields in_dir = true ->
  init_mode w fields in_dir = Ok r ->
  init_shards r = Ok (n, shards0) ->
  List.length shards0 = n ->
  exists self,
    __init__ w fields in_dir split shuffle_shards seed fns = Ok self /\
    num_shards self = n /\
    List.length (shards self) = n.
Proof.
  intros Hone Hmode Hsh Hlen. unfold __init__.
  rewrite Hone, Hmode, Hsh. simpl. eexists. split; [reflexivity|].
  simpl. split; [reflexivity|].
  destruct shuffle_shards; [rewrite shuffle_length|]; exact Hlen.
Qed.

Lemma init_of_check_error `{Random} w fields in_dir split shuffle_shards seed
    fns (r : Resolved) (primary : list Path) (e : exn) :
  exactly_one_not_null fields in_dir = true ->
  init_mode w fields in_dir = Ok r ->
  Py.dict_get (r_streams r) "cuts" = Some primary ->
  check_fields (r_streams r) (List.length primary) (r_fields r) = Err e ->
  __init__ w fields in_dir split shuffle_shards seed fns = Err e.
Proof.
  intros Hone Hmode Hprim Hcheck. unfold __init__, init_shards.
  rewrite Hone, Hmode. simpl. rewrite Hprim, Hcheck. reflexivity.
Qed.

Lemma resolves_mapping `{Random} w split shuffle_shards seed fns
    (fs : Py.dict (list Path)) :
  resolves w (Some fs) None split shuffle_shards seed fns.
Proof.
  unfold resolves.
  destruct (Py.dict_get fs "cuts") as [primary|] eqn:Hprim.
  - set (r := mkResolved None
                (Py.set_remove "cuts" (Py.set_of (Py.dict_keys fs))) fs).
    assert (Hmode : init_mode w (Some fs) None = Ok r).
    { simpl. unfold _init_from_inputs, Py.dict_mem. rewrite Hprim.
      reflexivity. }
    assert (Hsub : forall field, In field (r_fields r) ->
                     In field (Py.dict_keys (r_streams r))).
    { intros field Hin. apply set_remove_of_In in Hin. apply Hin. }
    destruct (check_fields (r_streams r) (List.length primary) (r_fields r))
      as [[]|e] eqn:Hcheck.
    + right. split.
      * intros CE. inversion CE as [| |fs' Hnone| |fs' field locs prim Hf Hp Hne|];
          subst.
        -- congruence.
        -- rewrite Hprim in Hp. inversion Hp; subst prim.
           destruct (string_dec field "cuts") as [-> | Hfield].
           ++ rewrite Hprim in Hf. inversion Hf; subst. congruence.
           ++ destruct (proj1 (check_fields_ok _ _ _) Hcheck field)
                as (locs' & Hl & Hn).
              { apply set_remove_of_In. split; [|exact Hfield].
                apply dict_get_keys. eauto. }
              simpl in Hl. congruence.
      * destruct (init_shards_total r primary Hprim) as (shards0 & Hsh & Hlen).
        { intros k Hk. destruct (string_dec k "cuts") as [-> | Hne]; [auto|].
          right. apply set_remove_of_In. auto. }
        { exact Hcheck. }
        destruct (init_of_shards w (Some fs) None split shuffle_shards seed
                    fns r _ shards0 eq_refl Hmode Hsh Hlen)
          as (self & Hinit & Hnum & Hshards).
        exists self. simpl. rewrite Hprim. simpl.
        split; [exact Hinit|]. split; congruence.
    + left.
      destruct (check_fields_err _ _ _ _ Hsub Hcheck)
        as (-> & field & locs & Hin & Hl & Hn).
      split.
      * eapply shard_count_disagrees_in_mapping; eauto.
      * eapply init_of_check_error; eauto.
  - left. split.
    + apply primary_missing_from_mapping. exact Hprim.
    + unfold __init__. simpl. unfold _init_from_inputs, Py.dict_mem.
      rewrite Hprim. reflexivity.
Qed.

Lemma group_of_nonempty (w : World) (d : Path) (field : string) :
  group_of w d field <> [] <->
  In field (map stem_head (glob_star w d)).
Proof.
  unfold group_of. rewrite in_map_iff. split.
  - intros Hne.
    destruct (filter _ (glob_star w d)) as [|p l] eqn:E; [congruence|].
    assert (Hp : In p (p :: l)) by (left; reflexivity).
    rewrite <- E in Hp. apply filter_In in Hp. destruct Hp as [Hin Heq].
    apply String.eqb_eq in Heq.
    exists p. rewrite stem_head_name_head. auto.
  - intros (p & Hhead & Hin) Hnil.
    rewrite stem_head_name_head in Hhead.
    assert (Hp : In p (filter (fun p => String.eqb (name_head p) field)
                              (glob_star w d))).
    { apply filter_In. split; [exact Hin|]. apply String.eqb_eq, Hhead. }
    rewrite Hnil in Hp. exact Hp.
Qed.

Lemma dir_streams_get (w : World) (d : Path) (k : string) :
  let fields :=
    Py.set_remove "cuts" (Py.set_of (map stem_head (glob_star w d))) in
  Py.dict_get
    (add_field_streams (glob_star w d) fields
       [("cuts", Py.sorted (primary_files w d))]) k
  = if in_dec string_dec k fields then Some (Py.sorted (group_of w d k))
    else if String.eqb "cuts" k then Some (Py.sorted (primary_files w d))
         else None.
Proof.
  intros fields. rewrite add_field_streams_get. reflexivity.
Qed.

Lemma resolves_directory `{Random} w split shuffle_shards seed fns
    (d : Path) :
  resolves w None (Some d) split shuffle_shards seed fns.
Proof.
  unfold resolves.
  set (fields := Py.set_remove "cuts"
                   (Py.set_of (map stem_head (glob_star w d)))).
  set (streams := add_field_streams (glob_star w d) fields
                    [("cuts", Py.sorted (primary_files w d))]).
  destruct (Py.set_mem "cuts" (Py.set_of (map stem_head (glob_star w d))))
    eqn:Hmem.
  - set (r := mkResolved (Some d) fields streams).
    assert (Hmode : init_mode w None (Some d) = Ok r).
    { simpl. unfold _init_from_dir. rewrite Hmem. reflexivity. }
    assert (Hprim : Py.dict_get (r_streams r) "cuts"
                    = Some (Py.sorted (primary_files w d))).
    { simpl. unfold streams, fields. rewrite dir_streams_get.
      destruct (in_dec _ _ _) as [Hin|_]; [|reflexivity].
      apply set_remove_of_In in Hin. tauto. }
    assert (Hfield : forall field, In field fields ->
              Py.dict_get streams field = Some (Py.sorted (group_of w d field))).
    { intros field Hin. unfold streams, fields. rewrite dir_streams_get.
      destruct (in_dec _ _ _) as [_|Hn]; [reflexivity|].
      exfalso. apply Hn. exact Hin. }
    assert (Hsub : forall field, In field (r_fields r) ->
                     In field (Py.dict_keys (r_streams r))).
    { intros field Hin. apply dict_get_keys. simpl. rewrite (Hfield _ Hin).
      eauto. }
    assert (Hdiscovered : forall field,
              In field fields <-> group_of w d field <> [] /\ field <> "cuts").
    { intros field. unfold fields.
      rewrite set_remove_of_In, group_of_nonempty. tauto. }
    destruct (check_fields (r_streams r)
                (List.length (Py.sorted (primary_files w d))) (r_fields r))
      as [[]|e] eqn:Hcheck.
    + right. split.
      * intros CE. inversion CE as [| | |d' Hnone| |d' field Hne Hgrp Hlen];
          subst.
        -- apply set_mem_In in Hmem. unfold Py.set_of in Hmem.
           apply nodup_In, in_map_iff in Hmem.
           destruct Hmem as (p & Hhead & Hin).
           rewrite stem_head_name_head in Hhead.
           exact (Hnone p Hin Hhead).
        -- destruct (proj1 (check_fields_ok _ _ _) Hcheck field)
             as (locs & Hl & Hn).
           { apply Hdiscovered. auto. }
           simpl in Hl. rewrite Hfield in Hl by (apply Hdiscovered; auto).
           inversion Hl; subst locs. rewrite !sorted_length in Hn.
           contradiction.
      * destruct (init_shards_total r _ Hprim) as (shards0 & Hsh & Hlen).
        { intros k Hk. apply dict_get_keys in Hk. destruct Hk as [v Hv].
          simpl in Hv. unfold streams, fields in Hv.
          rewrite dir_streams_get in Hv.
          destruct (in_dec _ _ _) as [Hin|_]; [right; exact Hin|].
          destruct (String.eqb "cuts" k) eqn:Ek; [|discriminate].
          apply String.eqb_eq in Ek. auto. }
        { exact Hcheck. }
        destruct (init_of_shards w None (Some d) split shuffle_shards seed
                    fns r _ shards0 eq_refl Hmode Hsh Hlen)
          as (self & Hinit & Hnum & Hshards).
        exists self. simpl. rewrite sorted_length in Hnum, Hshards.
        split; [exact Hinit|].
        split; [exact Hnum | rewrite Hnum; exact Hshards].
    + left.
      destruct (check_fields_err _ _ _ _ Hsub Hcheck)
        as (-> & field & locs & Hin & Hl & Hn).
      simpl in Hin, Hl. rewrite (Hfield _ Hin) in Hl.
      inversion Hl; subst locs. rewrite !sorted_length in Hn.
      split.
      * apply (shard_count_disagrees_in_directory w d field).
        -- apply Hdiscovered. exact Hin.
        -- apply Hdiscovered. exact Hin.
        -- exact Hn.
      * eapply init_of_check_error; eauto.
  - left. split.
    + apply primary_missing_from_directory. intros p Hin Hhead.
      assert (Hin' : Py.set_mem "cuts"
                       (Py.set_of (map stem_head (glob_star w d))) = true).
      { apply set_mem_In. unfold Py.set_of. apply nodup_In, in_map_iff.
        exists p. rewrite stem_head_name_head. auto. }
      congruence.
    + unfold __init__. simpl. unfold _init_from_dir. rewrite Hmem.
      reflexivity.
Qed.

(** C4: construction fails if and only if the inputs are a configuration
    error (neither or both of the mapping and the directory supplied, the
    primary field missing from the mapping or from the directory scan, or a
    field with another number of locations than the primary field), and then
    it fails on the assertion, before any instance exists; otherwise it
    gives an instance whose [num_shards] is the number of locations of the
    primary field, with as many shard descriptors. *)
Theorem construction_fails_iff_configuration_error `{Random} (w : World)
    fields in_dir split shuffle_shards seed fns :
  let result := __init__ w fields in_dir split shuffle_shards seed fns in
  (ConfigurationError w fields in_dir <-> exists e, result = Err e) /\
  (ConfigurationError w fields in_dir <-> result = Err AssertionError) /\
  (~ ConfigurationError w fields in_dir <->
   exists self,
     result = Ok self /\
     num_shards self = List.length (primary_locations w fields in_dir) /\
     List.length (shards self) = num_shards self).
Proof.
  assert (R : resolves w fields in_dir split shuffle_shards seed fns).
  { destruct fields as [fs|], in_dir as [d|].
    - left. split; [constructor | reflexivity].
    - apply resolves_mapping.
    - apply resolves_directory.
    - left. split; [constructor | reflexivity]. }
  cbv zeta.
  destruct R as [[CE E] | [NCE (self & E & Hn & Hs)]]; rewrite E.
  - split; [|split].
    + split; eauto.
    + tauto.
    + split; [tauto | intros (self & E' & _); discriminate].
  - split; [|split].
    + split; [tauto | intros [e E']; discriminate].
    + split; [tauto | discriminate].
    + split; eauto.
Qed.

(** ** Directory mode *)

Lemma dir_fields_discovered (w : World) (d : Path) (r : Resolved)
    (field : string) :
  _init_from_dir w d = Ok r ->
  In field (r_fields r) <->
  field <> "cuts" /\ exists p, In p (glob_star w d) /\ name_head p = field.
Proof.
  unfold _init_from_dir.
  destruct (negb _); [discriminate|]. intros E. inversion E; subst; simpl.
  rewrite set_remove_of_In, in_map_iff. split.
  - intros [(p & Hhead & Hin) Hne]. rewrite stem_head_name_head in Hhead.
    eauto.
  - intros [Hne (p & Hin & Hhead)]. split; [|exact Hne].
    exists p. rewrite stem_head_name_head. auto.
Qed.

Lemma filter_length_perm {A} (f : A -> bool) (l l' : list A) :
  Permutation l l' ->
  List.length (filter f l) = List.length (filter f l').
Proof.
  induction 1 as [|x l l' _ IH|x y l|l l' l'' _ IH1 _ IH2]; simpl.
  - reflexivity.
  - destruct (f x); simpl; congruence.
  - destruct (f x), (f y); reflexivity.
  - congruence.
Qed.

(** The scenario's directory, in whatever order the system lists it. *)
Lemma scenario_directory `{Random} (w : World) split shuffle_shards seed fns :
  Permutation (glob_star w "some_dir") shar_dir_listing ->
  exists self,
    __init__ w None (Some "some_dir") split shuffle_shards seed fns = Ok self /\
    (forall field, In field (fields self) <-> field = "recording") /\
    num_shards self = 2.
Proof.
  intros Hperm.
  assert (Hgroup : forall field,
            List.length (group_of w "some_dir" field)
            = List.length (filter (fun p => String.eqb (name_head p) field)
                                  shar_dir_listing)).
  { intros field. apply filter_length_perm, Hperm. }
  assert (Hprimary : List.length (primary_files w "some_dir") = 2).
  { unfold primary_files. rewrite (filter_length_perm _ _ _ Hperm).
    reflexivity. }
  assert (Hheads : forall field,
            (exists p, In p (glob_star w "some_dir") /\ name_head p = field)
            <-> field = "recording" \/ field = "cuts").
  { intros field. split.
    - intros (p & Hin & Hhead).
      apply (Permutation_in _ Hperm) in Hin. simpl in Hin.
      destruct Hin as [<- | [<- | [<- | [<- | []]]]]; subst field;
        vm_compute; auto.
    - intros [-> | ->].
      + exists "some_dir/recording.000000.tar". split; [|reflexivity].
        apply (Permutation_in _ (Permutation_sym Hperm)). simpl. auto.
      + exists "some_dir/cuts.000000.jsonl". split; [|reflexivity].
        apply (Permutation_in _ (Permutation_sym Hperm)). simpl. auto. }
  destruct (resolves_directory w split shuffle_shards seed fns "some_dir")
    as [[CE _] | [_ (self & Hinit & Hnum & _)]].
  - exfalso.
    inversion CE as [| | |d' Hnone| |d' field Hne Hgrp Hlen]; subst.
    + destruct (proj2 (Hheads "cuts") (or_intror eq_refl)) as (p & Hin & Hp).
      exact (Hnone p Hin Hp).
    + apply group_of_nonempty, in_map_iff in Hgrp.
      destruct Hgrp as (p & Hhead & Hin).
      rewrite stem_head_name_head in Hhead.
      destruct (proj1 (Hheads field)) as [-> | ->]; eauto.
      rewrite Hgroup, Hprimary in Hlen. apply Hlen. reflexivity.
  - exists self. split; [exact Hinit|]. split.
    + destruct (init_inv _ _ _ _ _ _ _ _ Hinit)
        as (r & shards0 & _ & Hmode & _ & Hself).
      intros field. rewrite Hself. simpl.
      rewrite (dir_fields_discovered w "some_dir" r field Hmode), Hheads.
      split.
      * intros [Hne [-> | ->]]; congruence.
      * intros ->. split; [discriminate | auto].
    + simpl in Hnum. rewrite Hnum. exact Hprimary.
Qed.

(** C8: in directory mode the fields are the leading name components,
    before the first extension separator, of the directory's entries, the
    primary one apart; the locations of a field are the entries with that
    leading component (for the primary field, those that carry the manifest
    extension), in ascending lexicographic order.  On a directory that
    holds exactly [cuts.000000.jsonl], [cuts.000001.jsonl],
    [recording.000000.tar] and [recording.000001.tar], in whatever order
    the system lists them, the field set is [{recording}] and [num_shards]
    is 2; the shards pair each manifest with the recording of its index. *)
Theorem directory_mode_groups_and_sorts :
  (forall (w : World) (d : Path) (r : Resolved),
     _init_from_dir w d = Ok r ->
     (forall field,
        In field (r_fields r) <->
        field <> "cuts" /\
        exists p, In p (glob_star w d) /\ name_head p = field) /\
     (forall field, In field (r_fields r) ->
        exists locations,
          Py.dict_get (r_streams r) field = Some locations /\
          Sorted Py.str_le locations /\
          Permutation locations (group_of w d field)) /\
     (exists locations,
        Py.dict_get (r_streams r) "cuts" = Some locations /\
        Sorted Py.str_le locations /\
        Permutation locations (primary_files w d)))
  /\
  (forall (w : World) split shuffle_shards seed fns,
     Permutation (glob_star w "some_dir") shar_dir_listing ->
     exists self,
       __init__ w None (Some "some_dir") split shuffle_shards seed fns
       = Ok self /\
       (forall field, In field (fields self) <-> field = "recording") /\
       num_shards self = 2)
  /\
  (exists self,
     __init__ shar_dir None (Some "some_dir") false false 42 None = Ok self /\
     fields self = ["recording"] /\
     num_shards self = 2 /\
     shards self
     = [[("cuts", "some_dir/cuts.000000.jsonl");
         ("recording", "some_dir/recording.000000.tar")];
        [("cuts", "some_dir/cuts.000001.jsonl");
         ("recording", "some_dir/recording.000001.tar")]]).
Proof.
  split; [|split].
  - intros w d r Hinit. split; [|split].
    + intros field. apply dir_fields_discovered. exact Hinit.
    + intros field Hin.
      exists (Py.sorted (group_of w d field)).
      split; [|split; [apply sorted_Sorted | apply sorted_perm]].
      revert Hin. unfold _init_from_dir in Hinit.
      destruct (negb _); [discriminate|]. inversion Hinit; subst; simpl.
      intros Hin. fold (primary_files w d). rewrite dir_streams_get.
      destruct (in_dec _ _ _) as [_|Hn]; [reflexivity | contradiction].
    + exists (Py.sorted (primary_files w d)).
      split; [|split; [apply sorted_Sorted | apply sorted_perm]].
      unfold _init_from_dir in Hinit.
      destruct (negb _); [discriminate|]. inversion Hinit; subst; simpl.
      fold (primary_files w d). rewrite dir_streams_get.
      destruct (in_dec _ _ _) as [Hin|_]; [|reflexivity].
      apply set_remove_of_In in Hin. tauto.
  - intros w split shuffle_shards seed fns. apply (@scenario_directory CPython).
  - eexists. split; [vm_compute; reflexivity|]. repeat split.
Qed.

(** ** The archive stream adaptor *)

Lemma split_without_sep (sep : ascii) (s : string) :
  has_char sep s = false -> Py.split sep s = [s].
Proof.
  induction s as [|a s IH]; simpl; [reflexivity|].
  intros Hno. apply orb_false_iff in Hno. destruct Hno as [Ha Hs].
  rewrite Ha, (IH Hs). reflexivity.
Qed.

Lemma has_char_append (c : ascii) (s t : string) :
  has_char c (s ++ t)%string = has_char c s || has_char c t.
Proof.
  induction s as [|a s IH]; simpl; [reflexivity|].
  rewrite IH. apply orb_assoc.
Qed.

Lemma length_append (s t : string) :
  String.length (s ++ t)%string = String.length s + String.length t.
Proof. induction s as [|a s IH]; simpl; congruence. Qed.

Lemma substring_prefix (s t : string) :
  substring 0 (String.length s) (s ++ t)%string = s.
Proof.
  induction s as [|a s IH]; simpl.
  - destruct t; reflexivity.
  - rewrite IH. reflexivity.
Qed.

Lemma rfind_from_dummy (s : string) (k : Z) :
  (0 <= k)%Z ->
  Py.rfind_from Pathlib.dot (s ++ ".dummy")%string k = (k + Py.len s)%Z.
Proof.
  revert k. induction s as [|a s IH]; intros k Hk.
  - cbn. unfold Py.len. simpl. lia.
  - change (String a s ++ ".dummy")%string with (String a (s ++ ".dummy")%string).
    cbn [Py.rfind_from]. rewrite IH by lia.
    unfold Py.len. cbn [String.length].
    destruct (0 <=? k + 1 + Z.of_nat (String.length s))%Z eqn:E.
    + lia.
    + apply Z.leb_gt in E. lia.
Qed.

(** [Path(f"{id}.dummy").stem] is the id when the id can be a file
    name's stem. *)
Lemma stem_of_pseudo_path (s : string) :
  path_safe s = true -> Pathlib.stem (s ++ ".dummy")%string = s.
Proof.
  unfold path_safe. intros Hsafe. apply andb_true_iff in Hsafe.
  destruct Hsafe as [Hne Hslash].
  apply negb_true_iff in Hne, Hslash. apply String.eqb_neq in Hne.
  assert (Hname : Pathlib.name (s ++ ".dummy")%string = (s ++ ".dummy")%string).
  { unfold Pathlib.name, Pathlib.parts.
    rewrite split_without_sep
      by (rewrite has_char_append, Hslash; reflexivity).
    assert (Hlong : forall t, String.length t < 6 ->
              String.eqb (s ++ ".dummy") t = false).
    { intros t Ht. apply String.eqb_neq. intros E.
      apply (f_equal String.length) in E. rewrite length_append in E.
      simpl in E. lia. }
    simpl. rewrite !Hlong by (simpl; lia). reflexivity. }
  unfold Pathlib.stem. rewrite Hname.
  unfold Py.rfind. rewrite rfind_from_dummy by lia.
  unfold Py.len. rewrite length_append. simpl String.length.
  assert (Hlen : 0 < String.length s) by (destruct s; simpl; [congruence|lia]).
  replace ((0 <? 0 + Z.of_nat (String.length s))%Z) with true
    by (symmetry; apply Z.ltb_lt; lia).
  replace ((0 + Z.of_nat (String.length s)
            <? Z.of_nat (String.length s + 6) - 1)%Z) with true
    by (symmetry; apply Z.ltb_lt; lia).
  simpl. unfold Py.slice_to. rewrite Nat2Z.id.
  apply substring_prefix.
Qed.

Example stem_of_id_with_dots : Pathlib.stem ("utt.1" ++ ".dummy")%string = "utt.1".
Proof. reflexivity. Qed.

Example stem_of_id_with_separator : Pathlib.stem ("a/b" ++ ".dummy")%string = "b".
Proof. reflexivity. Qed.

Lemma adapt_lines_safe (field : string) (lines : list JsonlItem)
    (tail : option exn) :
  (forall line, In line lines ->
     exists cut_id,
       Py.dict_get line "cut_id" = Some cut_id /\
       path_safe (format cut_id) = true) ->
  raises (adapt_lines field lines tail) = tail /\
  Forall2 (adaptor_pair field) lines (items (adapt_lines field lines tail)).
Proof.
  induction lines as [|line lines IH]; intros Hsafe; simpl.
  - split; constructor.
  - destruct (Hsafe line (or_introl eq_refl)) as (cut_id & Hid & Hs).
    rewrite Hid. simpl.
    destruct IH as [Hr Hf]; [intros l Hl; apply Hsafe; right; exact Hl|].
    split; [exact Hr|]. constructor; [|exact Hf].
    split; simpl.
    + unfold Py.dict_mem. destruct (Py.dict_get line field); reflexivity.
    + exists cut_id. split; [exact Hid | apply stem_of_pseudo_path, Hs].
Qed.

(** C7 as amended: for a stream of lines that each carry a ['cut_id']
    whose text is not empty and holds no path separator, the adaptor emits
    one pair per line, in order, and ends as the stream of lines ends; the
    pair holds none if the line lacks a value for the field and the line's
    value otherwise, and a pseudo-name whose stem is the record's id. *)
Theorem adaptor_emits_one_pair_per_line (jsonl_iter : Stream JsonlItem)
    (field : string) :
  (forall line, In line (items jsonl_iter) ->
     exists cut_id,
       Py.dict_get line "cut_id" = Some cut_id /\
       path_safe (format cut_id) = true) ->
  let out := _jsonl_tar_adaptor jsonl_iter field in
  raises out = raises jsonl_iter /\
  Forall2 (adaptor_pair field) (items jsonl_iter) (items out) /\
  List.length (items out) = List.length (items jsonl_iter).
Proof.
  intros Hsafe out.
  destruct (adapt_lines_safe field (items jsonl_iter) (raises jsonl_iter) Hsafe)
    as [Hr Hf].
  split; [exact Hr|]. split; [exact Hf|].
  symmetry. exact (Forall2_length Hf).
Qed.

Lemma adaptor_emits_one_pair_per_line_witness :
  let lines := [[("cut_id", VStr "utt.1"); ("feat", VInt 7)];
                [("cut_id", VStr "utt.2")]] in
  _jsonl_tar_adaptor (stream_of lines) "feat"
  = stream_of [(VInt 7, "utt.1.dummy"); (VNone, "utt.2.dummy")] /\
  Forall2 (adaptor_pair "feat") lines
    (items (_jsonl_tar_adaptor (stream_of lines) "feat")).
Proof.
  intros lines. split; [reflexivity|].
  apply (adaptor_emits_one_pair_per_line (stream_of lines) "feat").
  intros line [<- | [<- | []]]; eexists; split; reflexivity.
Defined.

(** C7 as stated fails: a line whose id holds a path separator gets a
    pseudo-name whose stem is only the id's last component. *)
Lemma adaptor_stem_differs_from_id : ~ adaptor_contract_as_stated.
Proof.
  intros Hc.
  destruct (Hc [[("cut_id", VStr "a/b"); ("feat", VInt 1)]] "feat")
    as [_ Hf].
  inversion Hf as [|line pair ls ps [_ (cut_id & Hid & Hstem)] _]; subst.
  simpl in Hid. inversion Hid; subst cut_id.
  vm_compute in Hstem. discriminate Hstem.
Qed.

(** A line without ['cut_id'] ends the adaptor with [KeyError]. *)
Example adaptor_line_without_id :
  _jsonl_tar_adaptor (stream_of [[("cut_id", VStr "a")]; [("feat", VInt 1)]])
                     "feat"
  = mkStream [(VNone, "a.dummy")] (Some KeyError).
Proof. reflexivity. Qed.

(** ** One step of the lockstep walk *)

Lemma advance_0 {A} (it : Stream A) : advance 0 it = it.
Proof. destruct it. reflexivity. Qed.

Lemma advance_S {A} (n : nat) (it : Stream A) :
  advance n (advance 1 it) = advance (S n) it.
Proof.
  unfold advance. simpl. f_equal.
  destruct (items it) as [|x l]; [destruct n|]; reflexivity.
Qed.

Lemma advance_raises {A} (n : nat) (its : list (Stream A)) :
  Forall (fun it => raises it = None) its ->
  Forall (fun it => raises it = None) (map (advance n) its).
Proof.
  intros Hall. apply Forall_map. exact Hall.
Qed.

Lemma zip_next_nonempty (its : list (Stream Item)) :
  Forall (fun it => items it <> []) its ->
  zip_next its = ZipYield (map head_item its) (map (advance 1) its).
Proof.
  induction 1 as [|it its Hit _ IH]; simpl; [reflexivity|].
  unfold next. destruct it as [[|x l] e]; simpl in *; [congruence|].
  rewrite IH. reflexivity.
Qed.

Lemma combine_keys_values {A B C} (g : B -> C) (d : list (A * B)) :
  combine (map fst d) (map g (map snd d))
  = map (fun e => (fst e, g (snd e))) d.
Proof.
  induction d as [|[k v] d IH]; simpl; congruence.
Qed.

(** ** Attaching the fields of one record *)

Lemma is_None_false (v : Val) : is_None v = false <-> v <> VNone.
Proof. destruct v; simpl; split; congruence. Qed.

Lemma Val_eqb_eq (v w : Val) : Val_eqb v w = true <-> v = w.
Proof.
  destruct v, w; simpl; split; intros E; try congruence.
  - apply String.eqb_eq in E. congruence.
  - apply String.eqb_eq. congruence.
  - apply Z.eqb_eq in E. congruence.
  - apply Z.eqb_eq. congruence.
Qed.

Lemma Val_eqb_refl (v : Val) : Val_eqb v v = true.
Proof. apply Val_eqb_eq. reflexivity. Qed.

Lemma Val_eqb_neq (v w : Val) : Val_eqb v w = false <-> v <> w.
Proof.
  destruct (Val_eqb v w) eqn:E; split; intros H; try congruence.
  - apply Val_eqb_eq in E. contradiction.
  - intros ->. rewrite Val_eqb_refl in E. discriminate.
Qed.

(** Only the field named ['id'] writes the id. *)
Lemma setattr_id (cut : Cut) (field : string) (v : Val) :
  field <> "id" -> id (setattr cut field v) = id cut.
Proof.
  intros Hne. unfold setattr. apply String.eqb_neq in Hne. rewrite Hne.
  destruct (String.eqb field "shard_origin"); reflexivity.
Qed.

Lemma attach_fields_in_sync (cut : Cut) (field_data : list (string * Item)) :
  ~ In "id" (map fst field_data) ->
  (forall field v p, In (field, (v, p)) field_data ->
     v = VNone \/ VStr (Pathlib.stem p) = id cut) ->
  exists cut',
    attach_fields cut field_data = Some cut' /\ id cut' = id cut.
Proof.
  revert cut.
  induction field_data as [|[field [v p]] fd IH]; intros cut Hno Hsync.
  - exists cut. auto.
  - simpl in Hno. cbn [attach_fields]. destruct (is_None v) eqn:Ev.
    + apply IH; [tauto|].
      intros field' v' p' Hin. eapply Hsync. right. exact Hin.
    + destruct (Hsync field v p (or_introl eq_refl)) as [-> | Hstem];
        [discriminate|].
      rewrite Hstem, Val_eqb_refl.
      assert (Hid : id (setattr cut field v) = id cut)
        by (apply setattr_id; intros ->; tauto).
      destruct (IH (setattr cut field v)) as (cut' & Hat & Hid').
      * tauto.
      * intros field' v' p' Hin. rewrite Hid. eapply Hsync. right. exact Hin.
      * exists cut'. split; [exact Hat | congruence].
Qed.

Lemma attach_fields_mismatch (cut : Cut) (field_data : list (string * Item)) :
  ~ In "id" (map fst field_data) ->
  (exists field v p,
     In (field, (v, p)) field_data /\
     v <> VNone /\ VStr (Pathlib.stem p) <> id cut) ->
  attach_fields cut field_data = None.
Proof.
  revert cut. induction field_data as [|[field [v p]] fd IH];
    intros cut Hno (field' & v' & p' & Hin & Hv & Hstem).
  - destruct Hin.
  - simpl in Hno. cbn [attach_fields]. destruct Hin as [E | Hin].
    + inversion E; subst. apply is_None_false in Hv. rewrite Hv.
      apply Val_eqb_neq in Hstem. rewrite Hstem. reflexivity.
    + destruct (is_None v).
      * apply IH; [tauto|]. eauto 6.
      * destruct (Val_eqb (VStr (Pathlib.stem p)) (id cut)); [|reflexivity].
        apply IH; [tauto|]. exists field', v', p'.
        rewrite setattr_id by (intros ->; tauto). auto.
Qed.

(** ** The synchronization fault *)

(** C2 as amended: for a shard none of whose fields is named ['id'] (the
    value of such a field would replace the id that the later items of the
    record are compared with), whose primary manifest yields [a, b], whose
    field streams each hold two items at least, the first of them a
    placeholder or named after [a], and one of whose field streams has a
    second item that carries a value and is named with another stem than
    [b]'s id, iteration yields the first record (with the first items
    attached, stamped and transformed) and nothing else: it raises the
    synchronization fault on reaching the second record, which is dropped,
    and no later shard is read. *)
Theorem mismatch_faults_at_second_record (w : World) (shard : Shard)
    (f : cut_map_fn) (cuts_path : Path) (a b : Cut) :
  Py.dict_get shard "cuts" = Some cuts_path ->
  manifest_cuts w cuts_path = [a; b] ->
  (forall field it, In (field, it) (field_iters_of w shard) ->
     field <> "id") ->
  (forall field it, In (field, it) (field_iters_of w shard) ->
     exists v1 p1 second rest,
       items it = (v1, p1) :: second :: rest /\
       (v1 = VNone \/ VStr (Pathlib.stem p1) = id a)) ->
  (exists field it first v2 p2 rest,
     In (field, it) (field_iters_of w shard) /\
     items it = first :: (v2, p2) :: rest /\
     v2 <> VNone /\ VStr (Pathlib.stem p2) <> id b) ->
  exists a1,
    attach_fields a
      (map (fun e => (fst e, head_item (snd e))) (field_iters_of w shard))
    = Some a1 /\
    id a1 = id a /\
    yielded (iter_shard w shard f)
    = [apply_cut_map_fn f (set_shard_origin a1 cuts_path)] /\
    outcome (iter_shard w shard f) = Raised AssertionError /\
    forall later,
      iter_shards w ((shard, f) :: later)
      = ([apply_cut_map_fn f (set_shard_origin a1 cuts_path)],
         Raised AssertionError).
Proof.
  intros Hcuts Hmanifest Hnoid Hfirst Hsecond.
  set (fi := field_iters_of w shard) in *.
  assert (Hno : forall g : Stream Item -> Item,
            ~ In "id" (map fst (map (fun e => (fst e, g (snd e))) fi))).
  { intros g Hin. rewrite map_map in Hin. simpl in Hin.
    apply in_map_iff in Hin. destruct Hin as ([field it] & E & Hin).
    simpl in E. subst field. exact (Hnoid "id" it Hin eq_refl). }
  assert (Hne1 : Forall (fun it => items it <> []) (Py.dict_values fi)).
  { apply Forall_forall. intros it Hin. unfold Py.dict_values in Hin.
    apply in_map_iff in Hin. destruct Hin as ([field it'] & <- & Hin).
    destruct (Hfirst field it' Hin) as (v1 & p1 & s & r & E & _).
    simpl. rewrite E. discriminate. }
  assert (Hne2 : Forall (fun it => items it <> [])
                        (map (advance 1) (Py.dict_values fi))).
  { apply Forall_map, Forall_forall. intros it Hin.
    unfold Py.dict_values in Hin.
    apply in_map_iff in Hin. destruct Hin as ([field it'] & <- & Hin).
    destruct (Hfirst field it' Hin) as (v1 & p1 & s & r & E & _).
    simpl. rewrite E. discriminate. }
  destruct (attach_fields_in_sync a
              (map (fun e => (fst e, head_item (snd e))) fi))
    as (a1 & Hat & Hid).
  { apply (Hno head_item). }
  { intros field v p Hin. apply in_map_iff in Hin.
    destruct Hin as ([field' it] & E & Hin). simpl in E.
    destruct (Hfirst field' it Hin) as (v1 & p1 & s & r & Eit & Hok).
    unfold head_item in E. rewrite Eit in E. simpl in E.
    inversion E; subst. exact Hok. }
  assert (Hfault : attach_fields b
            (map (fun e => (fst e, head_item (advance 1 (snd e)))) fi)
          = None).
  { apply attach_fields_mismatch;
      [apply (Hno (fun it => head_item (advance 1 it)))|].
    destruct Hsecond as (field & it & first & v2 & p2 & rest & Hin & Eit & Hv & Hp).
    exists field, v2, p2. split; [|auto].
    apply in_map_iff. exists (field, it). split; [|exact Hin].
    simpl. unfold head_item, advance. simpl. rewrite Eit. reflexivity. }
  assert (Hmerge : iter_shard w shard f
                   = mkMerge [apply_cut_map_fn f (set_shard_origin a1 cuts_path)]
                       (Raised AssertionError) (mkStream [] None)
                       (map (advance 1) (map (advance 1) (Py.dict_values fi)))).
  { unfold iter_shard. rewrite Hcuts. fold fi.
    unfold LazyManifestIterator. rewrite Hmanifest. simpl.
    rewrite (zip_next_nonempty _ Hne1).
    unfold Py.dict_keys, Py.dict_values. rewrite combine_keys_values, Hat.
    fold (Py.dict_values fi). rewrite (zip_next_nonempty _ Hne2).
    unfold Py.dict_values.
    rewrite (map_map (advance 1) head_item).
    rewrite (combine_keys_values (fun it => head_item (advance 1 it))).
    rewrite Hfault. reflexivity. }
  exists a1. rewrite Hmerge. simpl. repeat split; auto.
  intros later. rewrite Hmerge. reflexivity.
Qed.

Lemma mismatch_faults_at_second_record_witness :
  yielded (iter_shard misnamed_item feat_shard None)
  = [mkCut "a" [("feat", VStr "feat-a")] (Some "cuts.000000.jsonl")] /\
  outcome (iter_shard misnamed_item feat_shard None) = Raised AssertionError.
Proof.
  destruct (mismatch_faults_at_second_record misnamed_item feat_shard None
              "cuts.000000.jsonl" (mkCut "a" [] None) (mkCut "b" [] None)
              eq_refl eq_refl) as (a1 & Hat & _ & Hy & Ho & _).
  - intros field it Hin. vm_compute in Hin. destruct Hin as [E | []].
    inversion E; subst. discriminate.
  - intros field it Hin. vm_compute in Hin. destruct Hin as [E | []].
    inversion E; subst. do 4 eexists.
    split; [reflexivity | right; reflexivity].
  - exists "feat", (stream_of [(VStr "feat-a", "a.bin"); (VStr "feat-c", "c.bin")]),
      (VStr "feat-a", "a.bin"), (VStr "feat-c"), "c.bin", [].
    split; [left; reflexivity|]. split; [reflexivity|].
    split; [discriminate | vm_compute; discriminate].
  - vm_compute in Hat. inversion Hat; subst a1. split; assumption.
Defined.

(** C2 as stated fails: a second item that is a placeholder is skipped
    before its name is looked at, so both records are yielded and no fault is
    raised. *)
Lemma placeholder_name_is_not_checked : ~ fault_scenario_as_stated.
Proof.
  intros Hc.
  destruct (Hc misnamed_placeholder feat_shard None "cuts.000000.jsonl"
              (mkCut "a" [] None) (mkCut "b" [] None) "feat"
              (stream_of [(VStr "feat-a", "a.bin"); (VNone, "c.nodata")])
              (VStr "feat-a", "a.bin") (VNone, "c.nodata") []
              eq_refl eq_refl eq_refl eq_refl) as [Hlen _].
  - vm_compute. discriminate.
  - vm_compute in Hlen. discriminate Hlen.
Qed.

Example misnamed_placeholder_merge :
  let m := iter_shard misnamed_placeholder feat_shard None in
  yielded m
  = [mkCut "a" [("feat", VStr "feat-a")] (Some "cuts.000000.jsonl");
     mkCut "b" [] (Some "cuts.000000.jsonl")] /\
  outcome m = Finished.
Proof. split; reflexivity. Qed.

(** ** The lockstep walk *)

Lemma map_advance_0 {A} (its : list (Stream A)) : map (advance 0) its = its.
Proof.
  induction its as [|it its IH]; simpl; [|rewrite advance_0, IH]; reflexivity.
Qed.

Lemma map_advance_S {A} (n : nat) (its : list (Stream A)) :
  map (advance n) (map (advance 1) its) = map (advance (S n)) its.
Proof.
  rewrite map_map. apply map_ext. intros it. apply advance_S.
Qed.

Lemma length_advance_1 {A} (it : Stream A) :
  items it <> [] ->
  List.length (items it) = S (List.length (items (advance 1 it))).
Proof.
  destruct it as [[|x l] e]; simpl; [congruence | reflexivity].
Qed.

(** A step of [zip] over streams that do not raise either yields the
    head of every stream, or stops at the first exhausted stream, having
    read one item from every stream before it. *)
Lemma zip_next_cases (its : list (Stream Item)) :
  Forall (fun it => raises it = None) its ->
  (Forall (fun it => items it <> []) its /\
   zip_next its = ZipYield (map head_item its) (map (advance 1) its))
  \/
  (exists k it,
     nth_error its k = Some it /\ items it = [] /\
     Forall (fun it => items it <> []) (firstn k its) /\
     zip_next its = ZipStop (map (advance 1) (firstn k its) ++ skipn k its)).
Proof.
  induction 1 as [|it its Hit _ IH].
  - left. split; [constructor | reflexivity].
  - destruct it as [[|x l] e]; simpl in Hit; subst e.
    + right. exists 0, (mkStream [] None). simpl. auto.
    + destruct IH as [[Hne Hz] | (k & it' & Hk & Hempty & Hne & Hz)].
      * left. split; [constructor; [discriminate | exact Hne]|].
        simpl. rewrite Hz. reflexivity.
      * right. exists (S k), it'. simpl. rewrite Hz.
        repeat split; auto. constructor; [discriminate | exact Hne].
Qed.

Lemma min_length_nil (its : list (Stream Item)) : min_length [] its = 0.
Proof.
  unfold min_length. simpl.
  induction its as [|it its IH]; simpl; [reflexivity|].
  rewrite IH. apply Nat.min_0_r.
Qed.

Lemma min_length_le (cuts : list Cut) (its : list (Stream Item))
    (it : Stream Item) :
  In it its -> min_length cuts its <= List.length (items it).
Proof.
  unfold min_length.
  induction its as [|it' its IH]; simpl; intros Hin; [destruct Hin|].
  destruct Hin as [-> | Hin].
  - apply Nat.le_min_l.
  - etransitivity; [apply Nat.le_min_r | apply IH, Hin].
Qed.

Lemma min_length_advance (cut : Cut) (cuts : list Cut)
    (its : list (Stream Item)) :
  Forall (fun it => items it <> []) its ->
  min_length (cut :: cuts) its = S (min_length cuts (map (advance 1) its)).
Proof.
  unfold min_length.
  induction 1 as [|it its Hit _ IH]; [reflexivity|].
  cbn [fold_right map]. rewrite IH, (length_advance_1 it Hit). reflexivity.
Qed.

(** C6 as amended: in the merge of one shard whose streams do not raise,
    the only error is the synchronization fault; when none occurs the merge
    ends quietly at the first exhausted stream, after as many records as the
    shortest stream holds.  Each record yielded took one item from every
    stream.  If the primary stream is the one that ended, nothing more was
    read; otherwise the primary stream, and every field stream that [zip]
    polls before the first exhausted one, has been advanced one item past
    the records yielded (that item is dropped), and the exhausted stream and
    the streams after it have not been read further. *)
Theorem lockstep_merge (origin : Path) (f : cut_map_fn) (keys : list string)
    (cuts : list Cut) (field_iters : list (Stream Item)) :
  Forall (fun it => raises it = None) field_iters ->
  let m := merge_loop origin f keys cuts None field_iters in
  let n := List.length (yielded m) in
  (outcome m = Finished \/ outcome m = Raised AssertionError) /\
  (outcome m = Finished ->
   n = min_length cuts field_iters /\
   ((n = List.length cuts /\
     cuts_left m = advance n (stream_of cuts) /\
     fields_left m = map (advance n) field_iters)
    \/
    (n < List.length cuts /\
     cuts_left m = advance (S n) (stream_of cuts) /\
     exists k it,
       nth_error field_iters k = Some it /\
       List.length (items it) = n /\
       Forall (fun it => n < List.length (items it))
              (firstn k field_iters) /\
       fields_left m
       = map (advance (S n)) (firstn k field_iters)
         ++ map (advance n) (skipn k field_iters)))).
Proof.
  revert field_iters.
  induction cuts as [|cut cuts IH]; intros its Hraise; cbv zeta.
  - simpl. split; [auto|]. intros _.
    split; [symmetry; apply min_length_nil|].
    left. rewrite map_advance_0. auto.
  - cbn [merge_loop].
    destruct (zip_next_cases its Hraise)
      as [[Hne Hz] | (k & it & Hk & Hempty & Hne & Hz)]; rewrite Hz.
    + destruct (attach_fields cut (combine keys (map head_item its)))
        as [cut1|]; [|simpl; split; [auto | discriminate]].
      specialize (IH (map (advance 1) its) (advance_raises 1 its Hraise)).
      cbv zeta in IH. destruct IH as [Hout IH].
      set (m := merge_loop origin f keys cuts None (map (advance 1) its)) in *.
      simpl. split; [exact Hout|].
      intros Hfin. destruct (IH Hfin) as [Hmin Hleft].
      split; [rewrite (min_length_advance cut cuts its Hne); congruence|].
      destruct Hleft as [(Hn & Hc & Hf) | (Hn & Hc & k & it1 & Hk & Hlen & Hbefore & Hf)].
      * left. split; [congruence|]. split; [exact Hc|].
        rewrite Hf. apply map_advance_S.
      * right. split; [lia|]. split; [exact Hc|].
        rewrite nth_error_map in Hk.
        destruct (nth_error its k) as [it|] eqn:Ek; [|discriminate].
        simpl in Hk. inversion Hk; subst it1.
        assert (Hit : items it <> []).
        { eapply (proj1 (Forall_forall _ its) Hne), nth_error_In, Ek. }
        exists k, it. split; [exact Ek|].
        split; [rewrite (length_advance_1 it Hit); congruence|].
        split.
        -- rewrite firstn_map in Hbefore.
           apply (proj1 (Forall_map (advance 1) _ (firstn k its))) in Hbefore.
           assert (Hne' : Forall (fun it => items it <> []) (firstn k its)).
           { apply Forall_forall. intros x Hx.
             apply (proj1 (Forall_forall _ its) Hne).
             rewrite <- (firstn_skipn k its). apply in_or_app. auto. }
           apply Forall_forall. intros x Hx.
           pose proof (proj1 (Forall_forall _ _) Hne' x Hx) as Hx1.
           pose proof (proj1 (Forall_forall _ _) Hbefore x Hx) as Hx2.
           simpl in Hx2. rewrite (length_advance_1 x Hx1). simpl. lia.
        -- rewrite Hf, firstn_map, skipn_map, !map_advance_S. reflexivity.
    + simpl. split; [auto|]. intros _.
      assert (Hmin : min_length (cut :: cuts) its = 0).
      { pose proof (min_length_le (cut :: cuts) its it (nth_error_In _ _ Hk))
          as Hle.
        rewrite Hempty in Hle. simpl in Hle. lia. }
      split; [symmetry; exact Hmin|].
      right. split; [lia|]. split; [reflexivity|].
      exists k, it. split; [exact Hk|]. split; [rewrite Hempty; reflexivity|].
      split.
      * eapply Forall_impl; [|exact Hne]. intros x Hx. simpl in *.
        destruct (items x); [contradiction | simpl; lia].
      * rewrite map_advance_0. reflexivity.
Qed.

Lemma lockstep_merge_witness :
  let m := merge_loop "cuts.000000.jsonl" None ["feat"] three_cuts None
             two_items in
  outcome m = Finished /\
  List.length (yielded m) = 2 /\
  cuts_left m = stream_of [] /\
  fields_left m = [stream_of []].
Proof.
  intros m.
  assert (Hraise : Forall (fun it : Stream Item => raises it = None) two_items)
    by (repeat constructor).
  destruct (lockstep_merge "cuts.000000.jsonl" None ["feat"] three_cuts
              two_items Hraise) as [_ Hfin].
  fold m in Hfin. assert (Hout : outcome m = Finished) by reflexivity.
  destruct (Hfin Hout) as [Hn Hleft].
  split; [exact Hout|]. split; [exact Hn|].
  destruct Hleft as [(Hlen & _) | (_ & Hc & k & it & Hk & _ & _ & Hf)].
  - rewrite Hn in Hlen. discriminate Hlen.
  - rewrite Hn in Hc, Hf. split; [exact Hc|].
    destruct k as [|k]; [exact Hf|].
    destruct k; discriminate Hk.
Defined.

(** C6 as stated fails: with three records against a field stream of two
    items the merge yields two records and ends quietly, but the primary
    stream has been advanced three times: its third record was read before
    the field stream was found exhausted, and is dropped. *)
Lemma primary_stream_is_read_one_further : ~ lockstep_as_stated.
Proof.
  intros Hc.
  destruct (Hc "cuts.000000.jsonl" None ["feat"] three_cuts two_items)
    as [Hprimary _].
  - reflexivity.
  - repeat constructor.
  - constructor. simpl. lia.
  - reflexivity.
  - vm_compute in Hprimary. discriminate Hprimary.
Qed.

(** ** The shuffle is a permutation by positions *)

Lemma list_set_perm {A} (l : list A) (i : nat) (x y : A) :
  nth_error l i = Some x ->
  Permutation (y :: l) (x :: list_set l i y).
Proof.
  revert i. induction l as [|a l IH]; intros [|i] Hi; simpl in *;
    try discriminate.
  - inversion Hi; subst. apply perm_swap.
  - eapply perm_trans; [apply perm_swap|].
    eapply perm_trans; [apply perm_skip, (IH i Hi)|]. apply perm_swap.
Qed.

Lemma nth_error_list_set_same {A} (l : list A) (i : nat) (x y : A) :
  nth_error l i = Some x -> nth_error (list_set l i y) i = Some y.
Proof.
  revert i. induction l as [|a l IH]; intros [|i] Hi; simpl in *;
    try discriminate; auto.
Qed.

Lemma nth_error_list_set_other {A} (l : list A) (i j : nat) (y : A) :
  i <> j -> nth_error (list_set l i y) j = nth_error l j.
Proof.
  revert i j. induction l as [|a l IH]; intros [|i] [|j] Hij; simpl;
    try reflexivity; try congruence.
  apply IH. congruence.
Qed.

Lemma swap_perm {A} (l : list A) (i j : nat) : Permutation (swap l i j) l.
Proof.
  unfold swap.
  destruct (nth_error l i) as [xi|] eqn:Ei; [|apply Permutation_refl].
  destruct (nth_error l j) as [xj|] eqn:Ej; [|apply Permutation_refl].
  assert (Ej' : nth_error (list_set l i xj) j = Some xj).
  { destruct (Nat.eq_dec i j) as [<- | Hij].
    - eapply nth_error_list_set_same. exact Ei.
    - rewrite nth_error_list_set_other by exact Hij. exact Ej. }
  apply Permutation_sym, (Permutation_cons_inv (a := xj)).
  eapply perm_trans; [apply (list_set_perm l i xi xj Ei)|].
  apply (list_set_perm _ j xj xi Ej').
Qed.

Lemma shuffle_perm `{Random} {A} (seed : Z) (l : list A) :
  Permutation (shuffle seed l) l.
Proof.
  unfold shuffle. generalize (Random_seed seed) as g.
  generalize (List.length l - 1) as i. intros i. revert l.
  induction i as [|i IH]; intros l g; simpl; [apply Permutation_refl|].
  destruct (randbelow g _) as [j g'].
  eapply perm_trans; [apply IH | apply swap_perm].
Qed.

Lemma list_set_map {A B} (g : A -> B) (l : list A) (i : nat) (x : A) :
  list_set (map g l) i (g x) = map g (list_set l i x).
Proof.
  revert i. induction l as [|a l IH]; intros [|i]; simpl; try reflexivity.
  rewrite IH. reflexivity.
Qed.

Lemma swap_map {A B} (g : A -> B) (l : list A) (i j : nat) :
  swap (map g l) i j = map g (swap l i j).
Proof.
  unfold swap. rewrite !nth_error_map.
  destruct (nth_error l i) as [xi|]; simpl; [|reflexivity].
  destruct (nth_error l j) as [xj|]; simpl; [|reflexivity].
  rewrite !list_set_map. reflexivity.
Qed.

(** The shuffle moves positions, whatever the list holds. *)
Lemma shuffle_map `{Random} {A B} (g : A -> B) (seed : Z) (l : list A) :
  shuffle seed (map g l) = map g (shuffle seed l).
Proof.
  unfold shuffle. rewrite length_map.
  generalize (Random_seed seed) as s.
  generalize (List.length l - 1) as i. intros i. revert l.
  induction i as [|i IH]; intros l s; simpl; [reflexivity|].
  destruct (randbelow s _) as [j s'].
  rewrite swap_map. apply IH.
Qed.

(** CPython's [_randbelow] keeps to its bound, so the indices that
    [shuffle] exchanges are in range. *)
Lemma randbelow_loop_below (fuel : nat) (n k : Z) (s : MT19937.state) :
  (0 < n)%Z -> (fst (MT19937.randbelow_loop fuel n k s) < n)%Z.
Proof.
  intros Hn. revert s.
  induction fuel as [|fuel IH]; intros s; cbn [MT19937.randbelow_loop];
    destruct (MT19937.getrandbits s k) as [r s'];
    destruct (r <? n)%Z eqn:E; cbn [fst]; auto;
    apply Z.ltb_lt in E; exact E.
Qed.

Lemma cpython_randbelow_in_range : @randbelow_in_range CPython.
Proof.
  intros g n Hn.
  change (fst (MT19937._randbelow g n) < n). unfold MT19937._randbelow.
  pose proof (randbelow_loop_below 4096 (Z.of_nat n)
                (MT19937.bit_length (Z.of_nat n)) g ltac:(lia)) as Hlt.
  destruct (MT19937.randbelow_loop 4096 (Z.of_nat n)
              (MT19937.bit_length (Z.of_nat n)) g) as [r s'].
  cbn [fst] in *. lia.
Qed.

(** ** Iteration over the primary field alone *)










Example primary_only_two_shards :
  exists self,
    __init__ two_shards
      (Some [("cuts", ["cuts.000000.jsonl"; "cuts.000001.jsonl"])]) None
      false true 42 None = Ok self /\
    fst (__iter__ two_shards self)
    = ([mkCut "b" [] (Some "cuts.000001.jsonl");
        mkCut "a" [] (Some "cuts.000000.jsonl")],
       Finished).
Proof.
  eexists. split; vm_compute; reflexivity.
Qed.

(** * Further properties of the reader *)

(** ** [sorted] does not depend on the order of its input *)

Lemma ascii_compare_trans_le (x y z : ascii) :
  Ascii.compare x y <> Gt -> Ascii.compare y z <> Gt ->
  Ascii.compare x z <> Gt /\
  (Ascii.compare x z = Eq -> Ascii.compare x y = Eq /\ Ascii.compare y z = Eq).
Proof.
  unfold Ascii.compare. intros Hxy Hyz.
  change (N_of_ascii x <= N_of_ascii y)%N in Hxy.
  change (N_of_ascii y <= N_of_ascii z)%N in Hyz. split.
  - change (N_of_ascii x <= N_of_ascii z)%N. lia.
  - intros E. apply N.compare_eq_iff in E.
    split; apply N.compare_eq_iff; lia.
Qed.

Lemma string_compare_trans_le (a b c : string) :
  String.compare a b <> Gt -> String.compare b c <> Gt ->
  String.compare a c <> Gt.
Proof.
  revert b c. induction a as [|x a IH]; intros [|y b] [|z c]; simpl;
    try congruence.
  intros Hab Hbc.
  assert (Hxy : Ascii.compare x y <> Gt)
    by (destruct (Ascii.compare x y); congruence).
  assert (Hyz : Ascii.compare y z <> Gt)
    by (destruct (Ascii.compare y z); congruence).
  destruct (ascii_compare_trans_le x y z Hxy Hyz) as [Hxz Heq].
  destruct (Ascii.compare x z) eqn:E; try congruence.
  destruct (Heq eq_refl) as [E1 E2]. rewrite E1 in Hab. rewrite E2 in Hbc.
  exact (IH b c Hab Hbc).
Qed.

Lemma str_le_trans (a b c : string) :
  Py.str_le a b -> Py.str_le b c -> Py.str_le a c.
Proof.
  unfold Py.str_le, String.leb. intros Hab Hbc.
  assert (H1 : String.compare a b <> Gt)
    by (destruct (String.compare a b); congruence).
  assert (H2 : String.compare b c <> Gt)
    by (destruct (String.compare b c); congruence).
  pose proof (string_compare_trans_le a b c H1 H2) as H3.
  destruct (String.compare a c); congruence.
Qed.

Lemma str_le_refl (a : string) : Py.str_le a a.
Proof.
  destruct (String.leb_total a a); assumption.
Qed.

Lemma sorted_head_least (a : string) (l : list string) :
  Sorted Py.str_le (a :: l) -> forall x, In x (a :: l) -> Py.str_le a x.
Proof.
  intros Hs. apply Sorted_StronglySorted in Hs;
    [|intros x y z; apply str_le_trans].
  inversion Hs as [|a' l' _ Hall]; subst.
  intros x [<- | Hx]; [apply str_le_refl|].
  exact (proj1 (Forall_forall _ _) Hall x Hx).
Qed.

Lemma Sorted_perm_eq (l l' : list string) :
  Sorted Py.str_le l -> Sorted Py.str_le l' -> Permutation l l' -> l = l'.
Proof.
  revert l'. induction l as [|a l IH]; intros l' Hs Hs' Hp.
  - apply Permutation_nil in Hp. congruence.
  - destruct l' as [|b l'];
      [apply Permutation_sym, Permutation_nil in Hp; discriminate|].
    assert (a = b).
    { apply String.leb_antisym.
      - apply (sorted_head_least a l Hs).
        apply (Permutation_in _ (Permutation_sym Hp)). left. reflexivity.
      - apply (sorted_head_least b l' Hs').
        apply (Permutation_in _ Hp). left. reflexivity. }
    subst b. f_equal. apply IH.
    + inversion Hs; assumption.
    + inversion Hs'; assumption.
    + exact (Permutation_cons_inv Hp).
Qed.

Lemma sorted_perm_invariant (l l' : list string) :
  Permutation l l' -> Py.sorted l = Py.sorted l'.
Proof.
  intros Hp. apply Sorted_perm_eq; try apply sorted_Sorted.
  eapply perm_trans; [apply sorted_perm|].
  eapply perm_trans; [exact Hp | apply Permutation_sym, sorted_perm].
Qed.

Lemma filter_perm {A} (f : A -> bool) (l l' : list A) :
  Permutation l l' -> Permutation (filter f l) (filter f l').
Proof.
  induction 1 as [|x l l' _ IH|x y l|l l' l'' _ IH1 _ IH2]; simpl.
  - constructor.
  - destruct (f x); [apply perm_skip|]; exact IH.
  - destruct (f x), (f y); try apply Permutation_refl. apply perm_swap.
  - eapply perm_trans; eassumption.
Qed.

(** ** What construction establishes *)

Lemma init_shards_inv (r : Resolved) (n : nat) (shards0 : list Shard) :
  init_shards r = Ok (n, shards0) ->
  exists primary,
    Py.dict_get (r_streams r) "cuts" = Some primary /\
    n = List.length primary /\
    check_fields (r_streams r) n (r_fields r) = Ok tt /\
    shards_of (r_streams r) (seq 0 n) = Ok shards0.
Proof.
  unfold init_shards.
  destruct (Py.dict_get (r_streams r) "cuts") as [primary|]; [|discriminate].
  destruct (check_fields _ _ _) as [[]|] eqn:Hc; [|discriminate].
  destruct (shards_of _ _) as [shards|] eqn:Hs; [|discriminate].
  intros E. inversion E; subst. eauto.
Qed.

Lemma remove_NoDup (k : string) (l : list string) :
  NoDup l -> NoDup (Py.set_remove k l).
Proof.
  unfold Py.set_remove. induction 1 as [|x l Hx _ IH]; simpl; [constructor|].
  destruct (string_dec k x); [exact IH|].
  constructor; [|exact IH]. intros Hin. apply in_remove in Hin. tauto.
Qed.

(** After either mode the fields are a set without the primary field,
    and the keys of the streams are the primary field and the fields. *)
Lemma init_mode_fields (w : World) fs d (r : Resolved) :
  init_mode w fs d = Ok r ->
  NoDup (r_fields r) /\
  forall field,
    In field (r_fields r) <->
    field <> "cuts" /\ In field (Py.dict_keys (r_streams r)).
Proof.
  destruct d as [d|]; simpl.
  - unfold _init_from_dir. destruct (negb _); [discriminate|].
    intros E. inversion E; subst; clear E. simpl. split.
    + apply remove_NoDup, NoDup_nodup.
    + intros field. rewrite dict_get_keys.
      fold (primary_files w d). rewrite dir_streams_get.
      destruct (in_dec _ _ _) as [Hin | Hnin].
      * split; [|tauto]. intros _. split; [|eauto].
        apply set_remove_of_In in Hin. tauto.
      * split; [tauto|]. intros [Hne [v Hv]].
        destruct (String.eqb "cuts" field) eqn:E; [|discriminate].
        apply String.eqb_eq in E. congruence.
  - destruct fs as [fs|]; [|discriminate].
    unfold _init_from_inputs. destruct (negb _); [discriminate|].
    intros E. inversion E; subst; clear E. simpl. split.
    + apply remove_NoDup, NoDup_nodup.
    + intros field. rewrite set_remove_of_In. tauto.
Qed.

Lemma shard_of_get (streams : Py.dict (list Path)) (i : nat)
    (keys : list string) (acc shard : Shard) (k : string) :
  shard_of streams i keys acc = Ok shard ->
  Py.dict_get shard k
  = if in_dec string_dec k keys then location_at streams k i
    else Py.dict_get acc k.
Proof.
  revert acc. induction keys as [|k0 keys IH]; intros acc; simpl.
  - intros E. inversion E. reflexivity.
  - destruct (Py.dict_get streams k0) as [locations|] eqn:Hk0; [|discriminate].
    destruct (nth_error locations i) as [path|] eqn:Hi; [|discriminate].
    intros E. rewrite (IH _ E).
    destruct (in_dec string_dec k keys) as [Hin | Hnin].
    + destruct (string_dec k0 k); reflexivity.
    + rewrite dict_get_set. destruct (string_dec k0 k) as [-> | Hne].
      * rewrite String.eqb_refl. unfold location_at. rewrite Hk0.
        symmetry. exact Hi.
      * apply String.eqb_neq in Hne. rewrite Hne. reflexivity.
Qed.

Lemma shards_of_aligned (streams : Py.dict (list Path)) (idxs : list nat)
    (shards0 : list Shard) :
  shards_of streams idxs = Ok shards0 ->
  Forall2 (aligned streams) idxs shards0.
Proof.
  revert shards0. induction idxs as [|i idxs IH]; intros shards0; simpl.
  - intros E. inversion E. constructor.
  - destruct (shard_of streams i (Py.dict_keys streams) []) as [shard|] eqn:Hs;
      [|discriminate].
    destruct (shards_of streams idxs) as [rest|]; [|discriminate].
    intros E. inversion E; subst. constructor; [|apply IH; reflexivity].
    intros field. rewrite (shard_of_get _ _ _ _ _ field Hs).
    destruct (in_dec string_dec field (Py.dict_keys streams)) as [_ | Hnin];
      [reflexivity|].
    unfold location_at. simpl.
    destruct (Py.dict_get streams field) as [v|] eqn:E'; [|reflexivity].
    exfalso. apply Hnin, dict_get_keys. eauto.
Qed.

(** A shuffle moves two lists of one length alike. *)
Lemma shuffle_Forall2 `{Random} {A B} (P : A -> B -> Prop) (seed : Z)
    (l1 : list A) (l2 : list B) :
  Forall2 P l1 l2 -> Forall2 P (shuffle seed l1) (shuffle seed l2).
Proof.
  intros HF.
  assert (E1 : l1 = map fst (combine l1 l2)).
  { clear -HF. induction HF; simpl; congruence. }
  assert (E2 : l2 = map snd (combine l1 l2)).
  { clear -HF. induction HF; simpl; congruence. }
  assert (HP : Forall (fun ab => P (fst ab) (snd ab)) (combine l1 l2)).
  { clear -HF. induction HF; simpl; constructor; auto. }
  rewrite E1 at 1. rewrite E2 at 2. rewrite !shuffle_map.
  apply (Permutation_Forall (Permutation_sym (shuffle_perm seed _))) in HP.
  induction HP; simpl; constructor; auto.
Qed.

Lemma init_aligned `{Random} w fs d split shuffle_shards seed fns self :
  __init__ w fs d split shuffle_shards seed fns = Ok self ->
  let n := num_shards self in
  let order := if shuffle_shards then shuffle seed (seq 0 n) else seq 0 n in
  Permutation order (seq 0 n) /\
  Forall2 (aligned (streams self)) order (shards self).
Proof.
  intros Hinit.
  destruct (init_inv _ _ _ _ _ _ _ _ Hinit)
    as (r & shards0 & _ & _ & Hsh & Hself).
  destruct (init_shards_inv _ _ _ Hsh) as (primary & _ & _ & _ & Hshards).
  apply shards_of_aligned in Hshards.
  assert (Hst : streams self = r_streams r) by (rewrite Hself; reflexivity).
  assert (Hss : shards self
                = if shuffle_shards then shuffle seed shards0 else shards0)
    by (rewrite Hself; reflexivity).
  cbv zeta. rewrite Hst, Hss.
  destruct shuffle_shards.
  - split; [apply shuffle_perm | apply shuffle_Forall2, Hshards].
  - split; [apply Permutation_refl | exact Hshards].
Qed.

Lemma init_locations `{Random} w fs d split shuffle_shards seed fns self :
  __init__ w fs d split shuffle_shards seed fns = Ok self ->
  forall field locations,
    Py.dict_get (streams self) field = Some locations ->
    List.length locations = num_shards self.
Proof.
  intros Hinit field locations Hget.
  destruct (init_inv _ _ _ _ _ _ _ _ Hinit)
    as (r & shards0 & _ & Hmode & Hsh & Hself).
  destruct (init_shards_inv _ _ _ Hsh) as (primary & Hprim & Hn & Hcheck & _).
  destruct (init_mode_fields _ _ _ _ Hmode) as [_ Hfields].
  rewrite Hself in Hget. simpl in Hget.
  destruct (string_dec field "cuts") as [-> | Hne].
  - congruence.
  - destruct (proj1 (check_fields_ok _ _ _) Hcheck field) as (l & Hl & Hlen).
    + apply Hfields. split; [exact Hne|]. apply dict_get_keys. eauto.
    + congruence.
Qed.

(** X1: on every constructed instance each key of [streams] has exactly
    [num_shards] locations, there are [num_shards] shard descriptors, the
    primary field is a key of [streams], [fields] is a duplicate-free list
    of the other keys, and without a transform list there is one empty
    transform slot per shard. *)
Theorem every_field_has_num_shards_locations `{Random} (w : World)
    mapping dir split shuffle_shards seed fns self :
  __init__ w mapping dir split shuffle_shards seed fns = Ok self ->
  (forall field locations,
     Py.dict_get (streams self) field = Some locations ->
     List.length locations = num_shards self) /\
  List.length (shards self) = num_shards self /\
  In "cuts" (Py.dict_keys (streams self)) /\
  NoDup (fields self) /\
  (forall field,
     In field (fields self) <->
     field <> "cuts" /\ In field (Py.dict_keys (streams self))) /\
  (fns = None -> cut_map_fns self = repeat None (num_shards self)).
Proof.
  intros Hinit.
  destruct (init_inv _ _ _ _ _ _ _ _ Hinit)
    as (r & shards0 & _ & Hmode & Hsh & Hself).
  destruct (init_shards_inv _ _ _ Hsh) as (primary & Hprim & _).
  destruct (init_mode_fields _ _ _ _ Hmode) as [Hnd Hfields].
  destruct (init_aligned _ _ _ _ _ _ _ _ Hinit) as [Hperm Hal].
  assert (Hst : streams self = r_streams r) by (rewrite Hself; reflexivity).
  assert (Hfs : fields self = r_fields r) by (rewrite Hself; reflexivity).
  split; [exact (init_locations _ _ _ _ _ _ _ _ Hinit)|].
  split.
  { rewrite <- (Forall2_length Hal), (Permutation_length Hperm).
    apply length_seq. }
  split; [rewrite Hst; apply dict_get_keys; eauto|].
  split; [rewrite Hfs; exact Hnd|].
  split; [rewrite Hfs, Hst; exact Hfields|].
  intros ->. rewrite Hself. reflexivity.
Qed.

Lemma every_field_has_num_shards_locations_witness :
  exists self,
    __init__ shar_dir None (Some "some_dir") false true 42 None = Ok self /\
    (forall field locations,
       Py.dict_get (streams self) field = Some locations ->
       List.length locations = 2) /\
    List.length (shards self) = 2.
Proof.
  assert (exists self,
            __init__ shar_dir None (Some "some_dir") false true 42 None
            = Ok self /\ num_shards self = 2) as (self & E & Hn)
    by (eexists; split; [vm_compute; reflexivity | reflexivity]).
  destruct (every_field_has_num_shards_locations shar_dir _ _ _ _ _ _ _ E)
    as (Hloc & Hlen & _).
  rewrite Hn in Hloc, Hlen. exists self. auto.
Defined.

(** X2: the shard descriptors of a constructed instance are aligned by
    position: there is an order of the indices [0 .. num_shards - 1], each
    taken once (the identity without the shuffle, the shuffle of the indices
    with it), such that the k-th descriptor maps every field of [streams] to
    that field's location at the k-th index of the order, and has no other
    key. *)
Theorem shards_are_positionally_aligned `{Random} (w : World)
    mapping dir split shuffle_shards seed fns self :
  __init__ w mapping dir split shuffle_shards seed fns = Ok self ->
  let n := num_shards self in
  let order := if shuffle_shards then shuffle seed (seq 0 n) else seq 0 n in
  Permutation order (seq 0 n) /\
  Forall2 (fun shard_idx shard =>
             aligned (streams self) shard_idx shard /\
             forall field,
               In field (Py.dict_keys shard) <->
               In field (Py.dict_keys (streams self)))
          order (shards self).
Proof.
  intros Hinit n order.
  destruct (init_aligned _ _ _ _ _ _ _ _ Hinit) as [Hperm Hal].
  fold n in Hperm, Hal. fold order in Hperm, Hal.
  split; [exact Hperm|].
  assert (Hin : Forall (fun i => i < n) order).
  { apply Forall_forall. intros i Hi.
    apply (Permutation_in _ Hperm), in_seq in Hi. lia. }
  clear Hperm. revert Hin.
  induction Hal as [|i shard idxs shards' Hi _ IH];
    intros Hin; constructor.
  - split; [exact Hi|]. intros field. rewrite !dict_get_keys, (Hi field).
    unfold location_at.
    destruct (Py.dict_get (streams self) field) as [locations|] eqn:E.
    + pose proof (init_locations _ _ _ _ _ _ _ _ Hinit field locations E)
        as Hlen.
      inversion Hin as [|? ? Hlt _]; subst.
      destruct (nth_error locations i) as [p|] eqn:Ep.
      * split; eauto.
      * apply nth_error_None in Ep. fold n in Hlen. lia.
    + split; intros [v Hv]; discriminate.
  - apply IH. inversion Hin as [|? ? _ Hrest]; subst. exact Hrest.
Qed.

Lemma shards_are_positionally_aligned_witness :
  exists self,
    __init__ shar_dir None (Some "some_dir") false true 42 None = Ok self /\
    Forall2 (aligned (streams self)) [1; 0] (shards self).
Proof.
  assert (exists self,
            __init__ shar_dir None (Some "some_dir") false true 42 None
            = Ok self /\ num_shards self = 2) as (self & E & Hn)
    by (eexists; split; [vm_compute; reflexivity | reflexivity]).
  destruct (shards_are_positionally_aligned shar_dir _ _ _ _ _ _ _ E)
    as [_ Hal].
  rewrite Hn in Hal.
  change (shuffle 42 (seq 0 2)) with (shuffle 42 [0; 1]) in Hal.
  rewrite shuffle_42_pair in Hal.
  exists self. split; [exact E|].
  eapply Forall2_impl; [|exact Hal]. intros i shard [Ha _]. exact Ha.
Defined.

(** X3: shuffling permutes the shard descriptors and nothing else: the
    instance built with the shuffle has the shards of the instance built
    without it, each once, and the same streams, fields, shard count and
    transform list, which stays in its given order; with at most one shard
    the shard list is the same. *)
Theorem shuffle_keeps_every_shard `{Random} (w : World)
    mapping dir split seed fns self0 :
  __init__ w mapping dir split false seed fns = Ok self0 ->
  exists self,
    __init__ w mapping dir split true seed fns = Ok self /\
    Permutation (shards self) (shards self0) /\
    streams self = streams self0 /\
    fields self = fields self0 /\
    num_shards self = num_shards self0 /\
    cut_map_fns self = cut_map_fns self0 /\
    (num_shards self0 <= 1 -> shards self = shards self0).
Proof.
  intros Hinit.
  destruct (init_inv _ _ _ _ _ _ _ _ Hinit)
    as (r & shards0 & Hone & Hmode & Hsh & Hself).
  assert (Hlen : List.length shards0 = num_shards self0).
  { destruct (init_shards_inv _ _ _ Hsh) as (primary & _ & _ & _ & Hs).
    apply shards_of_aligned, Forall2_length in Hs.
    rewrite length_seq in Hs. congruence. }
  eexists. split.
  - unfold __init__. rewrite Hone, Hmode, Hsh. reflexivity.
  - rewrite Hself. simpl. repeat split.
    + apply shuffle_perm.
    + intros Hle. unfold shuffle.
      replace (List.length shards0 - 1) with 0 by lia. reflexivity.
Qed.

Lemma shuffle_keeps_every_shard_witness :
  exists self0 self,
    __init__ shar_dir None (Some "some_dir") false false 42
      (Some [mark "f0"; mark "f1"]) = Ok self0 /\
    __init__ shar_dir None (Some "some_dir") false true 42
      (Some [mark "f0"; mark "f1"]) = Ok self /\
    Permutation (shards self) (shards self0) /\
    cut_map_fns self = cut_map_fns self0.
Proof.
  assert (exists self0,
            __init__ shar_dir None (Some "some_dir") false false 42
              (Some [mark "f0"; mark "f1"]) = Ok self0) as (self0 & E)
    by (eexists; vm_compute; reflexivity).
  destruct (shuffle_keeps_every_shard shar_dir _ _ _ _ _ _ E)
    as (self & Hinit & Hperm & _ & _ & _ & Hfns & _).
  exists self0, self. auto.
Defined.

(** ** Directory mode, whatever the listing *)

Lemma dir_streams_lookup (w : World) (d : Path) (r : Resolved) (k : string) :
  _init_from_dir w d = Ok r ->
  Py.dict_get (r_streams r) k
  = if in_dec string_dec k (r_fields r)
    then Some (Py.sorted (group_of w d k))
    else if String.eqb "cuts" k then Some (Py.sorted (primary_files w d))
         else None.
Proof.
  unfold _init_from_dir. destruct (negb _); [discriminate|].
  intros E. inversion E; subst; clear E. simpl.
  fold (primary_files w d). apply dir_streams_get.
Qed.

(** X4: a field discovered in a directory has at least one location,
    which is an entry of the directory whose leading name component is the
    field ([p.stem], by which fields are discovered, and [p.name], by which
    entries are grouped, have the same leading component); so an instance
    built from a directory that has any non-primary field has at least one
    shard. *)
Theorem discovered_fields_have_locations `{Random} (w : World) (d : Path)
    split shuffle_shards seed fns self :
  __init__ w None (Some d) split shuffle_shards seed fns = Ok self ->
  (forall field, In field (fields self) ->
     exists locations p,
       Py.dict_get (streams self) field = Some locations /\
       In p locations /\ In p (glob_star w d) /\ name_head p = field) /\
  (fields self <> [] -> 0 < num_shards self).
Proof.
  intros Hinit.
  destruct (init_inv _ _ _ _ _ _ _ _ Hinit)
    as (r & shards0 & _ & Hmode & _ & Hself).
  simpl in Hmode.
  assert (Hst : streams self = r_streams r) by (rewrite Hself; reflexivity).
  assert (Hfs : fields self = r_fields r) by (rewrite Hself; reflexivity).
  assert (Hloc : forall field, In field (fields self) ->
            exists locations p,
              Py.dict_get (streams self) field = Some locations /\
              In p locations /\ In p (glob_star w d) /\ name_head p = field).
  { intros field Hin. rewrite Hfs in Hin.
    destruct (proj1 (dir_fields_discovered w d r field Hmode) Hin)
      as (_ & p & Hp & Hhead).
    exists (Py.sorted (group_of w d field)), p.
    rewrite Hst, (dir_streams_lookup w d r field Hmode).
    destruct (in_dec string_dec field (r_fields r)); [|contradiction].
    split; [reflexivity|]. split; [|auto].
    apply sorted_In, filter_In. split; [exact Hp|].
    apply String.eqb_eq. exact Hhead. }
  split; [exact Hloc|].
  intros Hne. destruct (fields self) as [|field rest] eqn:E; [congruence|].
  destruct (Hloc field (or_introl eq_refl)) as (locations & p & Hget & Hp & _).
  rewrite <- (init_locations _ _ _ _ _ _ _ _ Hinit field locations Hget).
  destruct locations; [destruct Hp | simpl; lia].
Qed.

Lemma discovered_fields_have_locations_witness :
  exists self,
    __init__ shar_dir None (Some "some_dir") false false 42 None = Ok self /\
    0 < num_shards self.
Proof.
  assert (exists self,
            __init__ shar_dir None (Some "some_dir") false false 42 None
            = Ok self /\ fields self = ["recording"]) as (self & E & Hf)
    by (eexists; split; [vm_compute; reflexivity | reflexivity]).
  destruct (discovered_fields_have_locations shar_dir "some_dir" _ _ _ _ _ E)
    as [_ Hpos].
  exists self. split; [exact E|]. apply Hpos. rewrite Hf. discriminate.
Defined.

Lemma configuration_error_relisted (w1 w2 : World) (d : Path) :
  Permutation (glob_star w1 d) (glob_star w2 d) ->
  ConfigurationError w1 None (Some d) -> ConfigurationError w2 None (Some d).
Proof.
  intros Hp CE.
  inversion CE as [| | |d' Hnone| |d' field Hne Hgrp Hlen]; subst.
  - apply primary_missing_from_directory. intros p Hin.
    apply Hnone. exact (Permutation_in _ (Permutation_sym Hp) Hin).
  - apply (shard_count_disagrees_in_directory w2 d field).
    + exact Hne.
    + intros Hnil. apply Hgrp.
      pose proof (filter_length_perm
                    (fun p => String.eqb (name_head p) field) _ _ Hp) as Hl.
      fold (group_of w1 d field) in Hl. fold (group_of w2 d field) in Hl.
      rewrite Hnil in Hl. destruct (group_of w1 d field); [reflexivity|].
      discriminate Hl.
    + unfold group_of, primary_files in *.
      rewrite <- (filter_length_perm _ _ _ Hp).
      rewrite <- (filter_length_perm _ _ _ Hp). exact Hlen.
Qed.

Lemma Forall2_same_index {A B C} (P : A -> B -> Prop) (Q : A -> C -> Prop)
    (l : list A) (l1 : list B) (l2 : list C) :
  Forall2 P l l1 -> Forall2 Q l l2 ->
  Forall2 (fun x y => exists i, P i x /\ Q i y) l1 l2.
Proof.
  intros HP. revert l2. induction HP as [|a b l l1 Hab _ IH]; intros l2 HQ;
    inversion HQ; subst; constructor; eauto.
Qed.

(** X5: construction from a directory does not depend on the order in
    which the system lists the entries: for two listings of the same
    entries it fails alike or gives instances with the same shard count,
    the same fields, the same locations under every key of [streams], and
    shard descriptors that answer every lookup alike, position by
    position. *)
Theorem directory_listing_order_is_irrelevant `{Random} (w1 w2 : World)
    (d : Path) split shuffle_shards seed fns :
  Permutation (glob_star w1 d) (glob_star w2 d) ->
  match __init__ w1 None (Some d) split shuffle_shards seed fns,
        __init__ w2 None (Some d) split shuffle_shards seed fns with
  | Ok self1, Ok self2 =>
      num_shards self1 = num_shards self2 /\
      (forall field, In field (fields self1) <-> In field (fields self2)) /\
      same_mapping (streams self1) (streams self2) /\
      Forall2 same_mapping (shards self1) (shards self2)
  | Err e1, Err e2 => e1 = e2
  | _, _ => False
  end.
Proof.
  intros Hp.
  destruct (resolves_directory w1 split shuffle_shards seed fns d)
    as [[CE1 E1] | [NCE1 (self1 & E1 & Hn1 & _)]];
  destruct (resolves_directory w2 split shuffle_shards seed fns d)
    as [[CE2 E2] | [NCE2 (self2 & E2 & Hn2 & _)]];
  rewrite E1, E2.
  - reflexivity.
  - apply NCE2. exact (configuration_error_relisted w1 w2 d Hp CE1).
  - apply NCE1.
    exact (configuration_error_relisted w2 w1 d (Permutation_sym Hp) CE2).
  - destruct (init_inv _ _ _ _ _ _ _ _ E1)
      as (r1 & s1 & _ & Hm1 & _ & Hself1).
    destruct (init_inv _ _ _ _ _ _ _ _ E2)
      as (r2 & s2 & _ & Hm2 & _ & Hself2).
    simpl in Hm1, Hm2, Hn1, Hn2.
    assert (Hst1 : streams self1 = r_streams r1)
      by (rewrite Hself1; reflexivity).
    assert (Hst2 : streams self2 = r_streams r2)
      by (rewrite Hself2; reflexivity).
    assert (Hfs1 : fields self1 = r_fields r1)
      by (rewrite Hself1; reflexivity).
    assert (Hfs2 : fields self2 = r_fields r2)
      by (rewrite Hself2; reflexivity).
    assert (Hn : num_shards self1 = num_shards self2).
    { rewrite Hn1, Hn2. apply filter_length_perm, Hp. }
    assert (Hfields : forall field,
              In field (r_fields r1) <-> In field (r_fields r2)).
    { intros field.
      rewrite (dir_fields_discovered w1 d r1 field Hm1).
      rewrite (dir_fields_discovered w2 d r2 field Hm2).
      split; intros [Hne (p & Hin & Hhead)]; (split; [exact Hne|]);
        exists p; (split; [|exact Hhead]).
      - exact (Permutation_in _ Hp Hin).
      - exact (Permutation_in _ (Permutation_sym Hp) Hin). }
    assert (Hstreams : same_mapping (streams self1) (streams self2)).
    { intros k. rewrite Hst1, Hst2.
      rewrite (dir_streams_lookup w1 d r1 k Hm1).
      rewrite (dir_streams_lookup w2 d r2 k Hm2).
      destruct (in_dec string_dec k (r_fields r1)) as [H1 | H1];
        destruct (in_dec string_dec k (r_fields r2)) as [H2 | H2];
        try (exfalso; apply Hfields in H1; contradiction);
        try (exfalso; apply Hfields in H2; contradiction).
      - f_equal. apply sorted_perm_invariant, filter_perm, Hp.
      - destruct (String.eqb "cuts" k); [|reflexivity].
        f_equal. apply sorted_perm_invariant, filter_perm, Hp. }
    split; [exact Hn|].
    split; [rewrite Hfs1, Hfs2; exact Hfields|].
    split; [exact Hstreams|].
    destruct (init_aligned _ _ _ _ _ _ _ _ E1) as [_ Hal1].
    destruct (init_aligned _ _ _ _ _ _ _ _ E2) as [_ Hal2].
    rewrite <- Hn in Hal2.
    eapply Forall2_impl; [|exact (Forall2_same_index _ _ _ _ _ Hal1 Hal2)].
    intros a b (i & Ha & Hb) field.
    rewrite (Ha field), (Hb field). unfold location_at.
    rewrite (Hstreams field). reflexivity.
Qed.

Lemma directory_listing_order_is_irrelevant_witness :
  exists self1 self2,
    __init__ shar_dir None (Some "some_dir") false true 42 None = Ok self1 /\
    __init__ shar_dir_relisted None (Some "some_dir") false true 42 None
    = Ok self2 /\
    Forall2 same_mapping (shards self1) (shards self2).
Proof.
  assert (Hp : Permutation (glob_star shar_dir "some_dir")
                           (glob_star shar_dir_relisted "some_dir"))
    by apply Permutation_rev.
  pose proof (@directory_listing_order_is_irrelevant CPython shar_dir
                shar_dir_relisted "some_dir" false true 42%Z None Hp) as P.
  assert (exists self1,
            __init__ shar_dir None (Some ("some_dir" : Path)) false true 42
              None = Ok self1) as (self1 & E1)
    by (eexists; vm_compute; reflexivity).
  assert (exists self2,
            __init__ shar_dir_relisted None (Some ("some_dir" : Path)) false
              true 42 None = Ok self2) as (self2 & E2)
    by (eexists; vm_compute; reflexivity).
  rewrite E1, E2 in P.
  exists self1, self2. split; [exact E1|]. split; [exact E2|]. apply P.
Defined.

(** ** Attaching field values *)

Lemma attach_fields_keeps (cut cut' : Cut)
    (field_data : list (string * Item)) :
  ~ In "id" (map fst field_data) ->
  attach_fields cut field_data = Some cut' ->
  id cut' = id cut.
Proof.
  revert cut. induction field_data as [|[field [v p]] fd IH]; intros cut Hno;
    simpl in Hno; cbn [attach_fields].
  - intros E. inversion E. reflexivity.
  - destruct (is_None v); [apply IH; tauto|].
    destruct (Val_eqb _ _); [|discriminate].
    intros E. rewrite (IH _ (fun Hin => Hno (or_intror Hin)) E).
    apply setattr_id. intros ->. tauto.
Qed.

(** Reading an attribute after writing one: the attribute written holds
    the value written, whichever it is, and every other attribute holds
    what it held. *)
Lemma getattr_setattr (cut : Cut) (field name : string) (v : Val) :
  getattr (setattr cut field v) name
  = if String.eqb field name then Some v else getattr cut name.
Proof.
  unfold getattr, setattr.
  destruct (String.eqb field "id") eqn:Efi.
  - apply String.eqb_eq in Efi. subst field. cbn [id custom shard_origin].
    rewrite (String.eqb_sym "id" name).
    destruct (String.eqb name "id"); reflexivity.
  - destruct (String.eqb field "shard_origin") eqn:Efs.
    + apply String.eqb_eq in Efs. subst field. cbn [id custom shard_origin].
      rewrite (String.eqb_sym "shard_origin" name).
      destruct (String.eqb name "id") eqn:Eni.
      * apply String.eqb_eq in Eni. subst name. reflexivity.
      * destruct (String.eqb name "shard_origin"); reflexivity.
    + cbn [id custom shard_origin].
      destruct (String.eqb name "id") eqn:Eni.
      * apply String.eqb_eq in Eni. subst name. rewrite Efi. reflexivity.
      * destruct (String.eqb name "shard_origin") eqn:Ens.
        -- apply String.eqb_eq in Ens. subst name. rewrite Efs. reflexivity.
        -- apply dict_get_set.
Qed.

(** X6: when no field is named ['id'], attaching the fields of a record
    fails, as the synchronization fault, exactly when some field's item
    carries a value and is named with another stem than the record's id;
    placeholders and their names play no part.  (The value of a field named
    ['id'] becomes the id that the items after it are compared with.) *)
Theorem attach_fails_iff_mismatch (cut : Cut)
    (field_data : list (string * Item)) :
  ~ In "id" (map fst field_data) ->
  (attach_fields cut field_data = None <->
   exists field v p,
     In (field, (v, p)) field_data /\
     v <> VNone /\ VStr (Pathlib.stem p) <> id cut).
Proof.
  intros Hno. split; [|apply attach_fields_mismatch; exact Hno].
  revert cut Hno.
  induction field_data as [|[field [v p]] fd IH]; intros cut Hno;
    simpl in Hno; cbn [attach_fields].
  - discriminate.
  - destruct (is_None v) eqn:Ev.
    + intros E.
      destruct (IH cut (fun Hin => Hno (or_intror Hin)) E)
        as (f' & v' & p' & Hin & Hv & Hp).
      exists f', v', p'. simpl. auto.
    + destruct (Val_eqb (VStr (Pathlib.stem p)) (id cut)) eqn:Es.
      * intros E.
        destruct (IH _ (fun Hin => Hno (or_intror Hin)) E)
          as (f' & v' & p' & Hin & Hv & Hp).
        exists f', v', p'. simpl.
        rewrite setattr_id in Hp by (intros ->; tauto). auto.
      * intros _. exists field, v, p. split; [left; reflexivity|].
        split; [apply is_None_false, Ev | apply Val_eqb_neq, Es].
Qed.

Lemma attach_fails_iff_mismatch_witness :
  attach_fields (mkCut "b" [] None)
    [("feat", (VStr "feat-c", "c.bin")); ("recording", (VNone, "b.nodata"))]
  = None.
Proof.
  apply (attach_fails_iff_mismatch (mkCut "b" [] None)
           [("feat", (VStr "feat-c", "c.bin"));
            ("recording", (VNone, "b.nodata"))]).
  - simpl. intros [E | [E | []]]; discriminate E.
  - exists "feat", (VStr "feat-c"), "c.bin".
    split; [left; reflexivity|].
    split; [discriminate | vm_compute; discriminate].
Defined.

(** With a field named ['id'] the record is renamed on the way: the item
    of the next field, named after the record as the manifest holds it, no
    longer matches, and the fault is raised at the first record. *)
Example field_named_id_renames_the_record :
  attach_fields (mkCut "a" [] None)
    [("id", (VStr "z", "a.txt")); ("feat", (VStr "feat-a", "a.bin"))]
  = None /\
  yielded (iter_shard renaming_world renaming_shard None) = [] /\
  outcome (iter_shard renaming_world renaming_shard None)
  = Raised AssertionError.
Proof. repeat split; reflexivity. Qed.

(** X7: when the fields of a shard (each named once) are attached to a
    record without a fault, reading from the record an attribute named as
    one of the fields gives the value of that field's item, unless the item
    is a placeholder; a placeholder and a name that is no field of the
    shard leave the attribute as the record had it.  The attributes
    ['id'] and ['shard_origin'] are no exception: a field of that name
    writes them. *)
Theorem attached_values_are_exposed (cut cut' : Cut)
    (field_data : Py.dict Item) :
  attach_fields cut field_data = Some cut' ->
  NoDup (Py.dict_keys field_data) ->
  forall name,
    getattr cut' name
    = match Py.dict_get field_data name with
      | Some (v, _) => if is_None v then getattr cut name else Some v
      | None => getattr cut name
      end.
Proof.
  intros Hat Hnd. revert cut Hat.
  induction field_data as [|[f0 [v0 p0]] fd IH]; intros cut Hat name;
    cbn [attach_fields Py.dict_get] in *.
  - inversion Hat. reflexivity.
  - inversion Hnd as [|? ? Hnotin Hnd']; subst.
    assert (Hrest : String.eqb f0 name = true -> Py.dict_get fd name = None).
    { intros E. apply String.eqb_eq in E. subst name.
      destruct (Py.dict_get fd f0) as [x|] eqn:Ex; [|reflexivity].
      exfalso. apply Hnotin, dict_get_keys. eauto. }
    destruct (is_None v0) eqn:Ev.
    + rewrite (IH Hnd' cut Hat name).
      destruct (String.eqb f0 name) eqn:E; [|reflexivity].
      rewrite (Hrest eq_refl), Ev. reflexivity.
    + destruct (Val_eqb (VStr (Pathlib.stem p0)) (id cut)); [|discriminate].
      rewrite (IH Hnd' _ Hat name), getattr_setattr.
      destruct (String.eqb f0 name) eqn:E.
      * rewrite (Hrest eq_refl), Ev. reflexivity.
      * destruct (Py.dict_get fd name) as [[v p]|]; reflexivity.
Qed.

Lemma attached_values_are_exposed_witness :
  exists cut',
    attach_fields (mkCut "a" [("feat", VInt 1)] None)
      [("feat", (VStr "feat-a", "a.bin")); ("recording", (VNone, "a.nodata"));
       ("shard_origin", (VStr "elsewhere", "a.txt"))]
    = Some cut' /\
    getattr cut' "feat" = Some (VStr "feat-a") /\
    getattr cut' "recording" = None /\
    getattr cut' "shard_origin" = Some (VStr "elsewhere") /\
    getattr cut' "id" = Some (VStr "a").
Proof.
  eexists. split; [reflexivity|].
  assert (Hget := attached_values_are_exposed
              (mkCut "a" [("feat", VInt 1)] None) _
              [("feat", (VStr "feat-a", "a.bin"));
               ("recording", (VNone, "a.nodata"));
               ("shard_origin", (VStr "elsewhere", "a.txt"))] eq_refl).
  assert (Hnd : NoDup (Py.dict_keys
              [("feat", (VStr "feat-a", "a.bin"));
               ("recording", (VNone, "a.nodata"));
               ("shard_origin", (VStr "elsewhere", "a.txt"))]))
    by (repeat constructor; simpl; intuition discriminate).
  split; [exact (Hget Hnd "feat")|].
  split; [exact (Hget Hnd "recording")|].
  split; [exact (Hget Hnd "shard_origin") | exact (Hget Hnd "id")].
Defined.

(** ** What a merge yields *)

Lemma In_fst_combine {A B} (l : list A) (l' : list B) (x : A) :
  In x (map fst (combine l l')) -> In x l.
Proof.
  revert l'. induction l as [|a l IH]; intros [|b l']; simpl; try tauto.
  intros [E | Hin]; [left; exact E | right; exact (IH _ Hin)].
Qed.

(** X8: when no field is named ['id'], whatever the streams hold, the
    records a merge yields are the transforms of records that carry the ids
    of a prefix of the primary manifest, in manifest order, each stamped
    with the shard's primary location (which replaces what a field named
    ['shard_origin'] attached): the merge never reorders, skips or renames
    a record before the transform sees it. *)
Theorem merge_yields_a_prefix_in_order (origin : Path) (f : cut_map_fn)
    (keys : list string) (cuts : list Cut) (cuts_end : option exn)
    (field_iters : list (Stream Item)) :
  ~ In "id" keys ->
  let m := merge_loop origin f keys cuts cuts_end field_iters in
  exists stamped,
    yielded m = map (apply_cut_map_fn f) stamped /\
    map id stamped = firstn (List.length stamped) (map id cuts) /\
    Forall (fun cut => shard_origin cut = Some (VStr origin)) stamped.
Proof.
  intros Hno.
  revert field_iters. induction cuts as [|cut cuts IH]; intros its; cbv zeta.
  - exists []. simpl. auto.
  - cbn [merge_loop].
    destruct (zip_next its) as [data its1|its1|e its1];
      try (exists []; simpl; auto; fail).
    destruct (attach_fields cut (combine keys data)) as [cut1|] eqn:Hat;
      [|exists []; simpl; auto].
    destruct (IH its1) as (stamped & Hy & Hids & Hst).
    exists (set_shard_origin cut1 origin :: stamped). simpl.
    split; [rewrite Hy; reflexivity|]. split.
    + rewrite Hids. f_equal. refine (attach_fields_keeps _ _ _ _ Hat).
      intros Hin. exact (Hno (In_fst_combine _ _ _ Hin)).
    + constructor; [reflexivity | exact Hst].
Qed.

Lemma merge_yields_a_prefix_in_order_witness :
  exists stamped,
    yielded (iter_shard misnamed_item feat_shard (mark "f0"))
    = map (apply_cut_map_fn (mark "f0")) stamped /\
    map id stamped = [VStr "a"] /\
    Forall (fun cut => shard_origin cut = Some (VStr "cuts.000000.jsonl"))
           stamped.
Proof.
  destruct (merge_yields_a_prefix_in_order "cuts.000000.jsonl" (mark "f0")
              ["feat"] [mkCut "a" [] None; mkCut "b" [] None] None
              [stream_of [(VStr "feat-a", "a.bin"); (VStr "feat-c", "c.bin")]])
    as (stamped & Hy & Hids & Hst).
  - simpl. intros [E | []]. discriminate E.
  - exists stamped. split; [exact Hy|]. split; [|exact Hst].
    destruct stamped as [|s1 [|s2 stamped]];
      try (vm_compute in Hy; discriminate Hy).
    exact Hids.
Defined.

(** ** Lines without a record id *)

Lemma adapt_lines_stops (field : string) (before after : list JsonlItem)
    (bad : JsonlItem) (tail : option exn) :
  (forall line, In line before -> Py.dict_get line "cut_id" <> None) ->
  Py.dict_get bad "cut_id" = None ->
  raises (adapt_lines field (before ++ bad :: after) tail) = Some KeyError /\
  items (adapt_lines field (before ++ bad :: after) tail)
  = items (adapt_lines field before None).
Proof.
  intros Hids Hbad. induction before as [|line before IH];
    cbn [app adapt_lines].
  - rewrite Hbad. auto.
  - destruct (Py.dict_get line "cut_id") as [cut_id|] eqn:E;
      [|exfalso; exact (Hids line (or_introl eq_refl) E)].
    destruct IH as [Hr Hi].
    { intros l Hl. apply Hids. right. exact Hl. }
    cbn [items raises]. rewrite Hr, Hi. auto.
Qed.

Lemma adapt_lines_length (field : string) (lines : list JsonlItem)
    (tail : option exn) :
  (forall line, In line lines -> Py.dict_get line "cut_id" <> None) ->
  List.length (items (adapt_lines field lines tail)) = List.length lines.
Proof.
  induction lines as [|line lines IH]; intros Hids; cbn [adapt_lines];
    [reflexivity|].
  destruct (Py.dict_get line "cut_id") as [cut_id|] eqn:E;
    [|exfalso; exact (Hids line (or_introl eq_refl) E)].
  cbn [items List.length]. rewrite IH; [reflexivity|].
  intros l Hl. apply Hids. right. exact Hl.
Qed.

(** X10: the adaptor ends with [KeyError] at the first line that has
    no ['cut_id']: it has then emitted one pair for each line before that
    line, the pairs it emits for those lines alone, and it emits nothing for
    the lines after it, whatever they hold and however the stream of lines
    would have ended. *)
Theorem adaptor_stops_at_line_without_id (before after : list JsonlItem)
    (bad : JsonlItem) (tail : option exn) (field : string) :
  (forall line, In line before -> Py.dict_get line "cut_id" <> None) ->
  Py.dict_get bad "cut_id" = None ->
  let out := _jsonl_tar_adaptor (mkStream (before ++ bad :: after) tail)
                                field in
  raises out = Some KeyError /\
  items out = items (_jsonl_tar_adaptor (stream_of before) field) /\
  List.length (items out) = List.length before.
Proof.
  intros Hids Hbad. cbv zeta. unfold _jsonl_tar_adaptor.
  cbn [items raises stream_of].
  destruct (adapt_lines_stops field before after bad tail Hids Hbad)
    as [Hr Hi].
  split; [exact Hr|]. split; [exact Hi|].
  rewrite Hi. apply adapt_lines_length, Hids.
Qed.

Lemma adaptor_stops_at_line_without_id_witness :
  _jsonl_tar_adaptor
    (stream_of [[("cut_id", VStr "a"); ("feat", VInt 7)];
                [("feat", VInt 8)];
                [("cut_id", VStr "c"); ("feat", VInt 9)]]) "feat"
  = mkStream [(VInt 7, "a.dummy")] (Some KeyError).
Proof.
  destruct (adaptor_stops_at_line_without_id
              [[("cut_id", VStr "a"); ("feat", VInt 7)]]
              [[("cut_id", VStr "c"); ("feat", VInt 9)]]
              [("feat", VInt 8)] None "feat") as (Hr & Hi & _).
  - intros line [<- | []]. discriminate.
  - reflexivity.
  - reflexivity.
Defined.

(** ** The walk over the shards *)

(** X11: iterating over a list of shards followed by another is
    iterating over the first list and, if that ends without an exception,
    going on with the second: the records come out in shard order, and an
    exception in a shard ends the iteration with the records yielded so
    far, no later shard being opened. *)
Theorem iteration_is_concatenation_until_a_fault (w : World)
    (pairs1 pairs2 : list (Shard * cut_map_fn)) :
  iter_shards w (pairs1 ++ pairs2)
  = match iter_shards w pairs1 with
    | (ys1, Finished) =>
        let (ys2, o) := iter_shards w pairs2 in (ys1 ++ ys2, o)
    | (ys1, Raised e) => (ys1, Raised e)
    end.
Proof.
  induction pairs1 as [|[shard f] pairs1 IH]; simpl.
  - destruct (iter_shards w pairs2). reflexivity.
  - destruct (outcome (iter_shard w shard f)); [|reflexivity].
    rewrite IH.
    destruct (iter_shards w pairs1) as [ys1 [|e]]; [|reflexivity].
    destruct (iter_shards w pairs2) as [ys2 o].
    rewrite app_assoc. reflexivity.
Qed.

Lemma combine_firstn_min {A B} (l : list A) (l' : list B) :
  combine l l'
  = combine (firstn (Nat.min (List.length l) (List.length l')) l)
            (firstn (Nat.min (List.length l) (List.length l')) l').
Proof.
  revert l'. induction l as [|x l IH]; intros [|y l']; simpl; try reflexivity.
  rewrite <- IH. reflexivity.
Qed.

(** X12: the shards and the transform list are walked together and the
    walk ends with the shorter of the two: only the first [k] shards are
    read, [k] being the smaller of the number of shards (after the split,
    if any) and the number of transform slots, and the slots beyond [k] are
    not used; with an empty transform list nothing is yielded and nothing
    is raised. *)
Theorem transforms_bound_the_shards_read (w : World)
    (self : LazySharIterator) :
  let shards :=
    if split_for_dataloading self then shards_for_dataloading w self
    else shards self in
  let k := Nat.min (List.length shards) (List.length (cut_map_fns self)) in
  fst (__iter__ w self)
  = iter_shards w (combine (firstn k shards) (firstn k (cut_map_fns self))) /\
  List.length (combine (firstn k shards) (firstn k (cut_map_fns self))) = k /\
  (cut_map_fns self = [] -> fst (__iter__ w self) = ([], Finished)).
Proof.
  cbv zeta. unfold __iter__. simpl.
  set (shards := if split_for_dataloading self
                 then shards_for_dataloading w self else shards self).
  split; [rewrite (combine_firstn_min shards (cut_map_fns self)) at 1;
          reflexivity|].
  split.
  - rewrite length_combine, !length_firstn. lia.
  - intros ->. destruct shards; reflexivity.
Qed.

(** ** One field, record by record *)

Lemma merge_single_field (origin : Path) (f : cut_map_fn) (field : string)
    (cuts : list Cut) (its : list Item) :
  Forall2 (fun cut it =>
             fst it = VNone \/ VStr (Pathlib.stem (snd it)) = id cut)
          cuts its ->
  merge_loop origin f [field] cuts None [mkStream its None]
  = mkMerge
      (map (fun '(cut, it) =>
              apply_cut_map_fn f
                (set_shard_origin (attach_value cut field (fst it)) origin))
           (combine cuts its))
      Finished (mkStream [] None) [mkStream [] None].
Proof.
  induction 1 as [|cut [v p] cuts its Hsync _ IH]; [reflexivity|].
  cbn [merge_loop zip_next next items raises combine map attach_fields].
  unfold attach_value. cbn [fst].
  destruct (is_None v) eqn:Ev.
  - rewrite IH. reflexivity.
  - destruct Hsync as [Hv | Hstem].
    + cbn [fst] in Hv. subst v. discriminate Ev.
    + cbn [snd] in Hstem. rewrite Hstem, Val_eqb_refl.
      rewrite IH. reflexivity.
Qed.

(** X13: for a shard of the primary manifest and one field whose stream
    holds exactly one item per record, each a placeholder or named after
    the record at its position, iteration ends without a fault and yields
    every record of the manifest, in order: the item's value is written
    to the attribute named by the field unless it is a placeholder, then
    the shard's primary location is written to ['shard_origin'], then the
    record is transformed.  So a field named ['shard_origin'] is
    overwritten by the stamp, and a field named ['id'] renames the
    record. *)
Theorem aligned_field_is_attached (w : World) (cuts_path field_path : Path)
    (field : string) (f : cut_map_fn) (its : list Item) :
  String.eqb field "cuts" = false ->
  open_field w field field_path = stream_of its ->
  Forall2 (fun cut it =>
             fst it = VNone \/ VStr (Pathlib.stem (snd it)) = id cut)
          (manifest_cuts w cuts_path) its ->
  let m := iter_shard w [("cuts", cuts_path); (field, field_path)] f in
  yielded m
  = map (fun '(cut, it) =>
           apply_cut_map_fn f
             (set_shard_origin (attach_value cut field (fst it)) cuts_path))
        (combine (manifest_cuts w cuts_path) its) /\
  outcome m = Finished.
Proof.
  intros Hfield Hopen Hsync. cbv zeta.
  unfold iter_shard, field_iters_of, field_paths_of. simpl.
  rewrite Hfield. simpl. rewrite Hopen. unfold stream_of.
  rewrite (merge_single_field cuts_path f field _ its Hsync). auto.
Qed.

Lemma aligned_field_is_attached_witness :
  yielded (iter_shard misnamed_placeholder feat_shard None)
  = [mkCut "a" [("feat", VStr "feat-a")] (Some "cuts.000000.jsonl");
     mkCut "b" [] (Some "cuts.000000.jsonl")].
Proof.
  destruct (aligned_field_is_attached misnamed_placeholder
              "cuts.000000.jsonl" "feat.000000.tar" "feat" None
              [(VStr "feat-a", "a.bin"); (VNone, "c.nodata")]
              eq_refl eq_refl) as [Hy _].
  - constructor; [right; reflexivity|].
    constructor; [left; reflexivity | constructor].
  - exact Hy.
Defined.

Lemma adapt_lines_with_ids (field : string) (lines : list JsonlItem)
    (tail : option exn) :
  (forall line, In line lines -> Py.dict_get line "cut_id" <> None) ->
  adapt_lines field lines tail
  = mkStream
      (map (fun line =>
              (ifnone (Py.dict_get line field) VNone,
               (format (ifnone (Py.dict_get line "cut_id") VNone)
                ++ ".dummy")%string))
           lines)
      tail.
Proof.
  induction lines as [|line lines IH]; intros Hids; simpl; [reflexivity|].
  destruct (Py.dict_get line "cut_id") as [cut_id|] eqn:E;
    [|exfalso; exact (Hids line (or_introl eq_refl) E)].
  rewrite IH by (intros l Hl; apply Hids; right; exact Hl). simpl.
  unfold Py.dict_mem. destruct (Py.dict_get line field); reflexivity.
Qed.

Lemma combine_map_r {A B C} (g : B -> C) (l : list A) (l' : list B) :
  combine l (map g l') = map (fun ab => (fst ab, g (snd ab))) (combine l l').
Proof.
  revert l'. induction l as [|x l IH]; intros [|y l']; simpl; try reflexivity.
  rewrite IH. reflexivity.
Qed.

(** X14: a field kept as a JSONL manifest goes through the adaptor and
    the merge as an archive would: when the location carries no [.tar]
    extension and its lines are, one per record and in order, lines whose
    ['cut_id'] is the record's id (a string, not empty, without a path
    separator), iteration ends without a fault and yields every record with
    the line's value for the field written to the attribute named by the
    field, or unchanged when the line has no value for it, then stamped
    (the stamp overwrites a field named ['shard_origin']; a field named
    ['id'] renames the record) and transformed. *)
Theorem jsonl_field_is_attached (w : World) (cuts_path field_path : Path)
    (field : string) (f : cut_map_fn) :
  String.eqb field "cuts" = false ->
  extension_contains ".tar" field_path = false ->
  Forall2 (fun cut line =>
             Py.dict_get line "cut_id" = Some (id cut) /\
             exists s, id cut = VStr s /\ path_safe s = true)
          (manifest_cuts w cuts_path) (jsonl_items w field_path) ->
  let m := iter_shard w [("cuts", cuts_path); (field, field_path)] f in
  yielded m
  = map (fun '(cut, line) =>
           apply_cut_map_fn f
             (set_shard_origin
                (attach_value cut field
                   (ifnone (Py.dict_get line field) VNone))
                cuts_path))
        (combine (manifest_cuts w cuts_path) (jsonl_items w field_path)) /\
  outcome m = Finished.
Proof.
  intros Hfield Hext Hlines. cbv zeta.
  unfold iter_shard, field_iters_of, field_paths_of. simpl.
  rewrite Hfield. simpl.
  unfold open_field. rewrite Hext.
  unfold _jsonl_tar_adaptor, LazyJsonlIterator. simpl.
  rewrite adapt_lines_with_ids.
  - rewrite merge_single_field.
    + simpl. split; [|reflexivity].
      rewrite combine_map_r, map_map. apply map_ext.
      intros [cut line]. reflexivity.
    + clear -Hlines.
      induction Hlines as [|cut line cuts lines [Hid (s & Es & Hs)] _ IH];
        simpl; constructor; [|exact IH].
      right. simpl. rewrite Hid, Es. simpl. f_equal.
      apply stem_of_pseudo_path, Hs.
  - intros line Hin. clear -Hlines Hin.
    induction Hlines as [|cut line' cuts lines [Hid _] _ IH];
      [destruct Hin|].
    destruct Hin as [<- | Hin]; [congruence | exact (IH Hin)].
Qed.

Lemma jsonl_field_is_attached_witness :
  yielded (iter_shard jsonl_world jsonl_shard None)
  = [mkCut "a" [("feat", VInt 7)] (Some "cuts.000000.jsonl");
     mkCut "b" [] (Some "cuts.000000.jsonl")] /\
  outcome (iter_shard jsonl_world jsonl_shard None) = Finished.
Proof.
  destruct (jsonl_field_is_attached jsonl_world "cuts.000000.jsonl"
              "feat.000000.jsonl" "feat" None eq_refl eq_refl) as [Hy Ho].
  - constructor; [split; [reflexivity | exists "a"; split; reflexivity]|].
    constructor; [split; [reflexivity | exists "b"; split; reflexivity]
                 | constructor].
  - split; [exact Hy | exact Ho].
Defined.
